(** * Items application: REST resource handlers over the in-memory store

    A shallow embedding of the backend of the items application
    ([packages/backend/src/app.js] and
    [packages/backend/src/controllers/ItemDetailsController.js]) together with
    the properties its specification states about it.

    - JavaScript values are a small inductive type; numbers are the
      integer-valued ones ([Z]), strings are sequences of code units below 256.
    - The store is the pair of tables created by [app.js]; every handler is a
      computation in a state-and-exception monad over that store, so that a
      mutation made before an exception is thrown stays visible.
    - Clock readings are inputs of the handlers, one per call site.
    - The parts of the host the program calls but does not define
      ([JSON.parse], the storage engine's numeric/text conversions and its
      treatment of the dynamically built UPDATE statement) are a parameter
      [host] of the model. *)

From Stdlib Require Import ZArith List String Ascii Bool Lia DecimalString
  DecimalPos.
Import ListNotations.
Local Open Scope string_scope.
Local Open Scope Z_scope.

Set Warnings "-register-all".

(** ** JavaScript values *)

Inductive value : Type :=
| VUndefined
| VNull
| VBool (b : bool)
| VNum (n : Z)
| VStr (s : string)
| VArr (xs : list value)
| VObj (props : list (string * value)).

(** Exceptions: [Error msg] is [new Error(msg)]; the others are raised by the
    language or by the storage driver. *)
Inductive exn : Type :=
| Error (msg : string)
| TypeError
| RangeError
| SyntaxError
| SqliteError (msg : string).

Inductive result (A : Type) : Type :=
| Ok (a : A)
| Throw (e : exn).
Arguments Ok {A} a.
Arguments Throw {A} e.

(** ToBoolean. *)
Definition truthy (v : value) : bool :=
  match v with
  | VUndefined | VNull => false
  | VBool b => b
  | VNum n => negb (n =? 0)
  | VStr s => negb (s =? "")%string
  | VArr _ | VObj _ => true
  end.

Definition typeof (v : value) : string :=
  match v with
  | VUndefined => "undefined"
  | VBool _ => "boolean"
  | VNum _ => "number"
  | VStr _ => "string"
  | VNull | VArr _ | VObj _ => "object"
  end.

Definition Array_isArray (v : value) : bool :=
  match v with VArr _ => true | _ => false end.

Fixpoint lookup (k : string) (props : list (string * value)) : option value :=
  match props with
  | [] => None
  | (k', v) :: rest => if (k =? k')%string then Some v else lookup k rest
  end.

(** [o.k] for the property names the program reads (none of them is an index,
    [length] or a name inherited from a prototype): a [TypeError] on
    [undefined] and [null], the own property of an object, [undefined]
    otherwise. *)
Definition get (o : value) (k : string) : result value :=
  match o with
  | VUndefined | VNull => Throw TypeError
  | VObj props => Ok (match lookup k props with Some v => v | None => VUndefined end)
  | _ => Ok VUndefined
  end.

(** A destructuring default [{ k = dflt } = o]: the default replaces
    [undefined] only. *)
Definition or_default (v dflt : value) : value :=
  match v with VUndefined => dflt | _ => v end.

(** [a || b]. *)
Definition js_or (a b : value) : value := if truthy a then a else b.

(** [xs.includes(s)] for a string [s]. *)
Definition includes (xs : list value) (s : string) : bool :=
  existsb (fun x => match x with VStr t => (t =? s)%string | _ => false end) xs.

(** [o.k = v] on an object: an existing key keeps its place. *)
Fixpoint set_prop (k : string) (v : value) (props : list (string * value))
  : list (string * value) :=
  match props with
  | [] => [(k, v)]
  | (k', v') :: rest =>
      if (k =? k')%string then (k, v) :: rest else (k', v') :: set_prop k v rest
  end.

(** ** Strings *)

(** WhiteSpace and LineTerminator code units below 256: TAB, LF, VT, FF, CR,
    SP and NBSP. *)
Definition is_space (c : ascii) : bool :=
  let n := N_of_ascii c in
  ((9 <=? n) && (n <=? 13) || (n =? 32) || (n =? 160))%N.

Fixpoint trimStart (s : string) : string :=
  match s with
  | EmptyString => EmptyString
  | String c r => if is_space c then trimStart r else s
  end.

Fixpoint trimEnd (s : string) : string :=
  match s with
  | EmptyString => EmptyString
  | String c r =>
      match trimEnd r with
      | EmptyString => if is_space c then EmptyString else String c EmptyString
      | r' => String c r'
      end
  end.

(** [String.prototype.trim]. *)
Definition trim (s : string) : string := trimEnd (trimStart s).

Fixpoint whitespace_only (s : string) : bool :=
  match s with
  | EmptyString => true
  | String c r => is_space c && whitespace_only r
  end.

(** Number to decimal text (integer-valued numbers). *)
Definition decimal (n : Z) : string := NilZero.string_of_int (Z.to_int n).

Definition digit_value (radix : Z) (c : ascii) : option Z :=
  let n := Z.of_N (N_of_ascii c) in
  let d :=
    if (48 <=? n) && (n <=? 57) then Some (n - 48)
    else if (97 <=? n) && (n <=? 122) then Some (n - 87)
    else if (65 <=? n) && (n <=? 90) then Some (n - 55)
    else None in
  match d with
  | Some v => if v <? radix then Some v else None
  | None => None
  end.

(** The longest prefix of digits of [s] in [radix], read as a number on top of
    the accumulator; [seen] records whether a digit has been read. *)
Fixpoint read_digits (radix : Z) (s : string) (seen : bool) (acc : Z) : option Z :=
  match s with
  | EmptyString => if seen then Some acc else None
  | String c r =>
      match digit_value radix c with
      | Some v => read_digits radix r true (acc * radix + v)
      | None => if seen then Some acc else None
      end
  end.

(** [parseInt(s)] without a radix; [None] is [NaN].  Exact for results up to
    2^53 in absolute value. *)
Definition parseInt (s : string) : option Z :=
  let s1 := trimStart s in
  let '(neg, s2) :=
    match s1 with
    | String "-" r => (true, r)
    | String "+" r => (false, r)
    | _ => (false, s1)
    end in
  let '(radix, s3) :=
    match s2 with
    | String "0" (String "x" r) => (16, r)
    | String "0" (String "X" r) => (16, r)
    | _ => (10, s2)
    end in
  match read_digits radix s3 false 0 with
  | Some n => Some (if neg then - n else n)
  | None => None
  end.

(** ** The store *)

Inductive sqlval : Type :=
| SNull
| SNum (n : Z)
| SText (s : string).

Definition js_of_sql (v : sqlval) : value :=
  match v with
  | SNull => VNull
  | SNum n => VNum n
  | SText s => VStr s
  end.

(** A row of [items]. *)
Record item : Type := mkItem {
  item_id : Z;
  item_name : string;
  item_created_at : string
}.

(** A row of [item_details]: the key and the other columns in declaration
    order. *)
Record detail : Type := mkDetail {
  detail_id : Z;
  detail_cols : list (string * sqlval)
}.

(** The database: both tables, each with the AUTOINCREMENT high-water mark
    kept in [sqlite_sequence]. *)
Record db : Type := mkDb {
  items : list item;
  items_seq : Z;
  item_details : list detail;
  item_details_seq : Z
}.

(** The row id an AUTOINCREMENT table assigns: one more than the largest id
    ever used. *)
Definition next_rowid (seq : Z) (ids : list Z) : Z :=
  fold_right Z.max seq ids + 1.

(** What the host provides. *)
Record host : Type := mkHost {
  (** the engine's text rendering of a number stored in a TEXT column *)
  num_as_text : Z -> string;
  (** the number a text converts to under numeric affinity, if any *)
  text_as_num : string -> option Z;
  (** [JSON.parse] *)
  JSON_parse : string -> result value;
  (** [db.prepare(sql).run(...args)] for a statement whose text is built at
      run time: the number of changed rows and the new store, or an
      exception with the store it leaves *)
  run_dynamic : string -> list value -> db -> result Z * db
}.

(** ** State and exceptions *)

Definition M (A : Type) : Type := db -> result A * db.

Definition ret {A} (a : A) : M A := fun d => (Ok a, d).
Definition throw {A} (e : exn) : M A := fun d => (Throw e, d).
Definition lift {A} (r : result A) : M A := fun d => (r, d).

Definition bind {A B} (m : M A) (k : A -> M B) : M B :=
  fun d =>
    match m d with
    | (Ok a, d') => k a d'
    | (Throw e, d') => (Throw e, d')
    end.

(** [try { m } catch (error) { h error }]. *)
Definition try_catch {A} (m : M A) (h : exn -> M A) : M A :=
  fun d =>
    match m d with
    | (Ok a, d') => (Ok a, d')
    | (Throw e, d') => h e d'
    end.

Declare Scope js_scope.
Delimit Scope js_scope with js.
Notation "x <- m ;; k" := (bind m (fun x => k))
  (at level 61, m at next level, right associativity) : js_scope.
Notation "m ;;; k" := (bind m (fun _ => k))
  (at level 61, right associativity) : js_scope.
Local Open Scope js_scope.

(** ** HTTP responses *)

Record response : Type := mkResponse {
  status : Z;
  body : value
}.

(** [res.status(code).json({ error: msg })]. *)
Definition error_response (code : Z) (msg : string) : response :=
  mkResponse code (VObj [("error", VStr msg)]).

(** ** The storage driver: binding parameters

    [run] and [get] receive JavaScript values.  The driver binds numbers,
    strings, [null] and [undefined] (as NULL); an array argument contributes
    its elements as anonymous parameters; a plain object carries named
    parameters, of which the statements of this program have none, and at most
    one such object is accepted; anything else (a boolean in particular) is a
    [TypeError].  The number of bound values must be the number of
    placeholders, or the call is a [RangeError]. *)

Definition bind_value (v : value) : result sqlval :=
  match v with
  | VNum n => Ok (SNum n)
  | VStr s => Ok (SText s)
  | VNull | VUndefined => Ok SNull
  | VBool _ | VArr _ | VObj _ => Throw TypeError
  end.

Fixpoint bind_values (vs : list value) : result (list sqlval) :=
  match vs with
  | [] => Ok []
  | v :: rest =>
      match bind_value v with
      | Throw e => Throw e
      | Ok s =>
          match bind_values rest with
          | Throw e => Throw e
          | Ok ss => Ok (s :: ss)
          end
      end
  end.

Fixpoint bind_args (args : list value) (bound_object : bool) : result (list sqlval) :=
  match args with
  | [] => Ok []
  | VArr xs :: rest =>
      match bind_values xs with
      | Throw e => Throw e
      | Ok ss =>
          match bind_args rest bound_object with
          | Throw e => Throw e
          | Ok ss' => Ok (ss ++ ss')%list
          end
      end
  | VObj _ :: rest =>
      if bound_object then Throw TypeError else bind_args rest true
  | v :: rest =>
      match bind_value v with
      | Throw e => Throw e
      | Ok s =>
          match bind_args rest bound_object with
          | Throw e => Throw e
          | Ok ss => Ok (s :: ss)
          end
      end
  end.

Definition bind_parameters (placeholders : nat) (args : list value)
  : result (list sqlval) :=
  match bind_args args false with
  | Throw e => Throw e
  | Ok ss => if Nat.eqb (List.length ss) placeholders then Ok ss else Throw RangeError
  end.

(** What [run] returns. *)
Record run_info : Type := mkRunInfo {
  changes : Z;
  lastInsertRowid : Z
}.

(** Column affinities: TEXT, and the numeric ones (INTEGER, REAL, NUMERIC),
    which agree on integer-valued numbers. *)
Inductive affinity : Type := AffText | AffNum.

Definition coerce (h : host) (a : affinity) (v : sqlval) : sqlval :=
  match a, v with
  | AffText, SNum n => SText (num_as_text h n)
  | AffNum, SText s =>
      match text_as_num h s with Some n => SNum n | None => SText s end
  | _, _ => v
  end.

(** The row id a bound parameter is compared equal to in [WHERE id = ?]. *)
Definition rowid_of (h : host) (v : sqlval) : option Z :=
  match v with
  | SNull => None
  | SNum n => Some n
  | SText s => text_as_num h s
  end.

(** ** Statements on [items] *)

Definition js_of_item (it : item) : value :=
  VObj [("id", VNum (item_id it));
        ("name", VStr (item_name it));
        ("created_at", VStr (item_created_at it))].

(** [INSERT INTO items (name) VALUES (?)]; [current_timestamp] is the
    column default of [created_at]. *)
Definition insertStmt_run (h : host) (current_timestamp : string)
  (args : list value) : M run_info :=
  fun d =>
    match bind_parameters 1 args with
    | Throw e => (Throw e, d)
    | Ok [p] =>
        match coerce h AffText p with
        | SText name =>
            let id := next_rowid (items_seq d) (map item_id (items d)) in
            (Ok (mkRunInfo 1 id),
             mkDb (items d ++ [mkItem id name current_timestamp])%list id
                  (item_details d) (item_details_seq d))
        | _ => (Throw (SqliteError "NOT NULL constraint failed: items.name"), d)
        end
    | Ok _ => (Throw RangeError, d)
    end.

(** [SELECT * FROM items WHERE id = ?] with [.get]. *)
Definition select_item (h : host) (args : list value) : M value :=
  fun d =>
    match bind_parameters 1 args with
    | Throw e => (Throw e, d)
    | Ok [p] =>
        match rowid_of h p with
        | Some id =>
            match find (fun it => item_id it =? id) (items d) with
            | Some it => (Ok (js_of_item it), d)
            | None => (Ok VUndefined, d)
            end
        | None => (Ok VUndefined, d)
        end
    | Ok _ => (Throw RangeError, d)
    end.

(** [DELETE FROM items WHERE id = ?]. *)
Definition delete_item (h : host) (args : list value) : M run_info :=
  fun d =>
    match bind_parameters 1 args with
    | Throw e => (Throw e, d)
    | Ok [p] =>
        match rowid_of h p with
        | Some id =>
            let kept := filter (fun it => negb (item_id it =? id)) (items d) in
            (Ok (mkRunInfo (Z.of_nat (List.length (items d) - List.length kept)) 0),
             mkDb kept (items_seq d) (item_details d) (item_details_seq d))
        | None => (Ok (mkRunInfo 0 0), d)
        end
    | Ok _ => (Throw RangeError, d)
    end.

(** ** Routes of [app.js] on [items] *)

(** [app.post('/api/items', ...)]. *)
Definition post_api_items (h : host) (current_timestamp : string)
  (req_body : value) : M response :=
  try_catch
    (name <- lift (get req_body "name") ;;
     if negb (truthy name)
        || negb (typeof name =? "string")%string
        || (match name with VStr s => (trim s =? "")%string | _ => false end)
     then ret (error_response 400 "Item name is required")
     else
       result <- insertStmt_run h current_timestamp [name] ;;
       let id := lastInsertRowid result in
       newItem <- select_item h [VNum id] ;;
       ret (mkResponse 201 newItem))
    (fun _ => ret (error_response 500 "Failed to create item")).

(** [app.delete('/api/items/:id', ...)]; [id] is [req.params.id]. *)
Definition delete_api_items_id (h : host) (id : string) : M response :=
  try_catch
    (if negb (truthy (VStr id))
        || (match parseInt id with None => true | Some _ => false end)
     then ret (error_response 400 "Valid item ID is required")
     else
       let parsed := match parseInt id with Some n => VNum n | None => VUndefined end in
       result <- delete_item h [parsed] ;;
       if changes result =? 0
       then ret (error_response 404 "Item not found")
       else ret (mkResponse 200 (VObj [("message", VStr "Item deleted successfully")])))
    (fun _ => ret (error_response 500 "Failed to delete item")).

(** ** The [item_details] table *)

(** The columns after [id], in declaration order, with their affinities
    (BOOLEAN and TIMESTAMP are numeric affinities). *)
Definition detail_columns : list (string * affinity) :=
  [("name", AffText); ("description", AffText); ("category", AffText);
   ("priority", AffText); ("tags", AffText); ("status", AffText);
   ("due_date", AffText); ("assignee", AffText); ("created_by", AffText);
   ("custom_fields", AffText); ("attachment_ids", AffText);
   ("metadata", AffText); ("dependencies", AffText);
   ("estimated_hours", AffNum); ("budget", AffNum); ("location", AffText);
   ("external_refs", AffText); ("workflow_stage", AffText);
   ("approval_required", AffNum); ("template_id", AffNum);
   ("parent_item_id", AffNum); ("linked_items", AffText);
   ("reminder_settings", AffText); ("created_at", AffNum);
   ("updated_at", AffNum)].

(** The 24 columns the INSERT of the controller names: all but [updated_at]. *)
Definition insert_columns : list (string * affinity) :=
  removelast detail_columns.

Fixpoint store_columns (h : host) (cols : list (string * affinity))
  (vals : list sqlval) : list (string * sqlval) :=
  match cols, vals with
  | (c, a) :: cols', v :: vals' => (c, coerce h a v) :: store_columns h cols' vals'
  | _, _ => []
  end.

Definition column (c : string) (row : list (string * sqlval)) : sqlval :=
  match find (fun kv => (fst kv =? c)%string) row with
  | Some kv => snd kv
  | None => SNull
  end.

Definition js_of_detail (r : detail) : value :=
  VObj (("id", VNum (detail_id r))
        :: map (fun kv => (fst kv, js_of_sql (snd kv))) (detail_cols r)).

(** [INSERT INTO item_details (name, ..., created_at) VALUES (?, ..., ?)]:
    the explicit values replace the column defaults, [updated_at] takes its
    default, [name] is NOT NULL. *)
Definition insert_detail (h : host) (current_timestamp : string)
  (args : list value) : M run_info :=
  fun d =>
    match bind_parameters 24 args with
    | Throw e => (Throw e, d)
    | Ok ss =>
        let row := store_columns h insert_columns ss in
        match column "name" row with
        | SNull =>
            (Throw (SqliteError "NOT NULL constraint failed: item_details.name"), d)
        | _ =>
            let id := next_rowid (item_details_seq d)
                                 (map detail_id (item_details d)) in
            (Ok (mkRunInfo 1 id),
             mkDb (items d) (items_seq d)
                  (item_details d
                   ++ [mkDetail id (row ++ [("updated_at", SText current_timestamp)])])%list
                  id)
        end
    end.

Definition find_detail (id : Z) (d : db) : option detail :=
  find (fun r => detail_id r =? id) (item_details d).

(** [SELECT * FROM item_details WHERE id = ?] with [.get]. *)
Definition select_detail (h : host) (args : list value) : M value :=
  fun d =>
    match bind_parameters 1 args with
    | Throw e => (Throw e, d)
    | Ok [p] =>
        match rowid_of h p with
        | Some id =>
            match find_detail id d with
            | Some r => (Ok (js_of_detail r), d)
            | None => (Ok VUndefined, d)
            end
        | None => (Ok VUndefined, d)
        end
    | Ok _ => (Throw RangeError, d)
    end.

(** [DELETE FROM item_details WHERE id = ?]. *)
Definition delete_detail (h : host) (args : list value) : M run_info :=
  fun d =>
    match bind_parameters 1 args with
    | Throw e => (Throw e, d)
    | Ok [p] =>
        match rowid_of h p with
        | Some id =>
            let kept := filter (fun r => negb (detail_id r =? id)) (item_details d) in
            (Ok (mkRunInfo (Z.of_nat (List.length (item_details d) - List.length kept)) 0),
             mkDb (items d) (items_seq d) kept (item_details_seq d))
        | None => (Ok (mkRunInfo 0 0), d)
        end
    | Ok _ => (Throw RangeError, d)
    end.

(** ** The store [app.js] starts with *)

(** The sample rows [app.js] inserts into [item_details]: seven explicit
    columns, the defaults elsewhere. *)
Definition sample_detail (id : Z) (name description category priority status
  created_by created_at current_timestamp : string) : detail :=
  mkDetail id
    [("name", SText name); ("description", SText description);
     ("category", SText category); ("priority", SText priority);
     ("tags", SNull); ("status", SText status); ("due_date", SNull);
     ("assignee", SNull); ("created_by", SText created_by);
     ("custom_fields", SNull); ("attachment_ids", SNull); ("metadata", SNull);
     ("dependencies", SNull); ("estimated_hours", SNull); ("budget", SNull);
     ("location", SNull); ("external_refs", SNull); ("workflow_stage", SNull);
     ("approval_required", SNum 0); ("template_id", SNull);
     ("parent_item_id", SNull); ("linked_items", SNull);
     ("reminder_settings", SNull); ("created_at", SText created_at);
     ("updated_at", SText current_timestamp)].

(** The database once [app.js] is loaded; [current_timestamp k] is the
    engine's clock at the k-th insert and [iso1], [iso2] are the two
    [toISOString] readings. *)
Definition initial_db (current_timestamp : nat -> string) (iso1 iso2 : string)
  : db :=
  mkDb
    [mkItem 1 "Item 1" (current_timestamp 0%nat);
     mkItem 2 "Item 2" (current_timestamp 1%nat);
     mkItem 3 "Item 3" (current_timestamp 2%nat)]
    3
    [sample_detail 1 "Sample Detail Item 1"
       "This is a sample item with detailed information that will be used for refactoring exercises"
       "work" "high" "active" "system" iso1 (current_timestamp 3%nat);
     sample_detail 2 "Sample Detail Item 2"
       "Another sample item for testing the details functionality"
       "personal" "medium" "pending" "system" iso2 (current_timestamp 4%nat)]
    2.

(** ** [JSON.stringify] *)

Definition dquote : string := String (ascii_of_nat 34) EmptyString.
Definition backslash : string := String (ascii_of_nat 92) EmptyString.

Definition hex_digit (n : N) : string :=
  String (ascii_of_N (if (n <? 10)%N then 48 + n else 87 + n)%N) EmptyString.

(** The escape of one code unit inside a JSON string. *)
Definition escape_char (c : ascii) : string :=
  let n := N_of_ascii c in
  if (n =? 34)%N then backslash ++ dquote
  else if (n =? 92)%N then backslash ++ backslash
  else if (n =? 8)%N then backslash ++ "b"
  else if (n =? 9)%N then backslash ++ "t"
  else if (n =? 10)%N then backslash ++ "n"
  else if (n =? 12)%N then backslash ++ "f"
  else if (n =? 13)%N then backslash ++ "r"
  else if (n <? 32)%N
       then backslash ++ "u00" ++ hex_digit (n / 16) ++ hex_digit (n mod 16)
  else String c EmptyString.

Fixpoint escape (s : string) : string :=
  match s with
  | EmptyString => EmptyString
  | String c r => escape_char c ++ escape r
  end.

Definition quote (s : string) : string := dquote ++ escape s ++ dquote.

(** The text of a value; [None] where [JSON.stringify] returns [undefined].
    An [undefined] element of an array is written [null], an [undefined]
    property of an object is left out. *)
Fixpoint stringify (v : value) : option string :=
  match v with
  | VUndefined => None
  | VNull => Some "null"
  | VBool true => Some "true"
  | VBool false => Some "false"
  | VNum n => Some (decimal n)
  | VStr s => Some (quote s)
  | VArr xs =>
      Some ("[" ++ String.concat ","
                     (map (fun x => match stringify x with
                                    | Some t => t
                                    | None => "null"
                                    end) xs)
                ++ "]")
  | VObj props =>
      Some ("{" ++ String.concat ","
                     (flat_map (fun kv => match stringify (snd kv) with
                                          | Some t => [quote (fst kv) ++ ":" ++ t]
                                          | None => []
                                          end) props)
                ++ "}")
  end.

Definition JSON_stringify (v : value) : value :=
  match stringify v with
  | Some s => VStr s
  | None => VUndefined
  end.

(** ** More of the language: property access by computed key, conversions *)

(** A property read on a value known not to be [undefined] or [null]. *)
Definition field (o : value) (k : string) : value :=
  match o with
  | VObj props => match lookup k props with Some v => v | None => VUndefined end
  | _ => VUndefined
  end.

Fixpoint index_from (i : nat) (xs : list value) : list (string * value) :=
  match xs with
  | [] => []
  | x :: rest => (decimal (Z.of_nat i), x) :: index_from (S i) rest
  end.

Fixpoint chars (s : string) : list value :=
  match s with
  | EmptyString => []
  | String c r => VStr (String c EmptyString) :: chars r
  end.

(** The own enumerable properties of a value, as [{ ...v }] copies them. *)
Definition spread (v : value) : list (string * value) :=
  match v with
  | VObj props => props
  | VArr xs => index_from 0 xs
  | VStr s => index_from 0 (chars s)
  | _ => []
  end.

(** [Object.keys(v)] and [Object.values(v)]. *)
Definition Object_keys (v : value) : result (list string) :=
  match v with
  | VUndefined | VNull => Throw TypeError
  | _ => Ok (map fst (spread v))
  end.

Definition Object_values (v : value) : result (list value) :=
  match v with
  | VUndefined | VNull => Throw TypeError
  | _ => Ok (map snd (spread v))
  end.

(** [String(v)], as a template literal and a computed property key apply it.
    An object of the request has no callable [toString] of its own: with an
    own property of that name the conversion is a [TypeError]. *)
Fixpoint ToString (v : value) : result string :=
  match v with
  | VUndefined => Ok "undefined"
  | VNull => Ok "null"
  | VBool true => Ok "true"
  | VBool false => Ok "false"
  | VNum n => Ok (decimal n)
  | VStr s => Ok s
  | VArr xs =>
      (fix join (ys : list value) : result string :=
         match ys with
         | [] => Ok ""
         | y :: rest =>
             let piece :=
               match y with
               | VUndefined | VNull => Ok ""
               | _ => ToString y
               end in
             match piece, rest with
             | Throw e, _ => Throw e
             | Ok p, [] => Ok p
             | Ok p, _ =>
                 match join rest with
                 | Throw e => Throw e
                 | Ok q => Ok (p ++ "," ++ q)
                 end
             end
         end) xs
  | VObj props =>
      match lookup "toString" props with
      | Some _ => Throw TypeError
      | None => Ok "[object Object]"
      end
  end.

(** [v.toString()]. *)
Definition toString (v : value) : result string :=
  match v with
  | VUndefined | VNull => Throw TypeError
  | _ => ToString v
  end.

(** [o[k]] for a computed key, on the own properties of [o]: properties
    inherited from a prototype and the [length] of arrays and strings are
    not modelled. *)
Definition get_computed (o k : value) : result value :=
  match o with
  | VUndefined | VNull => Throw TypeError
  | _ =>
      match ToString k with
      | Throw e => Throw e
      | Ok key =>
          Ok (match lookup key (spread o) with Some v => v | None => VUndefined end)
      end
  end.

(** The number a string denotes, for the integer numerals: blank is 0, a
    numeral is an optional sign and decimal digits, or [0x] and hexadecimal
    digits; [None] is [NaN]. *)
Fixpoint all_digits (radix : Z) (s : string) : bool :=
  match s with
  | EmptyString => true
  | String c r =>
      match digit_value radix c with
      | Some _ => all_digits radix r
      | None => false
      end
  end.

Definition StringToNumber (s : string) : option Z :=
  match trim s with
  | EmptyString => Some 0
  | String "0" (String "x" r) | String "0" (String "X" r) =>
      if all_digits 16 r then read_digits 16 r false 0 else None
  | String "-" r =>
      if all_digits 10 r
      then match read_digits 10 r false 0 with Some n => Some (- n) | None => None end
      else None
  | String "+" r => if all_digits 10 r then read_digits 10 r false 0 else None
  | t => if all_digits 10 t then read_digits 10 t false 0 else None
  end.

(** [ToNumber(v)]; [Ok None] is [NaN]. *)
Definition ToNumber (v : value) : result (option Z) :=
  match v with
  | VUndefined => Ok None
  | VNull => Ok (Some 0)
  | VBool b => Ok (Some (if b then 1 else 0))
  | VNum n => Ok (Some n)
  | VStr s => Ok (StringToNumber s)
  | VArr _ | VObj _ =>
      match ToString v with
      | Throw e => Throw e
      | Ok s => Ok (StringToNumber s)
      end
  end.

(** [n < v] for a number [n]. *)
Definition number_lt (n : Z) (v : value) : result bool :=
  match ToNumber v with
  | Throw e => Throw e
  | Ok None => Ok false
  | Ok (Some m) => Ok (n <? m)
  end.

(** [a === s] for a string [s]. *)
Definition is_string (a : value) (s : string) : bool :=
  match a with VStr t => (t =? s)%string | _ => false end.

(** ** Utility functions of the controller *)

Definition validatePermissions (permissions createdBy : value) : bool :=
  if negb (truthy permissions) || negb (Array_isArray permissions) then false
  else
    let requiredPermissions := ["read"; "write"] in
    let hasRequired :=
      forallb (fun perm => match permissions with
                           | VArr xs => includes xs perm
                           | _ => false
                           end) requiredPermissions in
    if negb hasRequired then false else true.

(** [fields.k = v]: a [TypeError] on [null], a new or replaced property on
    an object, and no effect that [JSON.stringify] can see otherwise. *)
Definition assign (fields : value) (k : string) (v : value) : result value :=
  match fields with
  | VUndefined | VNull => Throw TypeError
  | VObj props => Ok (VObj (set_prop k v props))
  | _ => Ok fields
  end.

Definition processCustomFields (h : host) (iso_processedAt : string)
  (customFields templateId : value) : value :=
  let attempt : result value :=
    if negb (truthy customFields) then Ok (VObj [])
    else
      let parsed :=
        match customFields with
        | VStr s => JSON_parse h s
        | _ => Ok customFields
        end in
      match parsed with
      | Throw e => Throw e
      | Ok fields =>
          if truthy templateId then
            match assign fields "templateApplied" templateId with
            | Throw e => Throw e
            | Ok fields1 => assign fields1 "processedAt" (VStr iso_processedAt)
            end
          else Ok fields
      end in
  match attempt with
  | Ok fields => fields
  | Throw _ => VObj []
  end.

Fixpoint attachment_ids_from (ms_attachment : nat -> Z) (index : nat)
  (attachments : list value) : list value :=
  match attachments with
  | [] => []
  | _ :: rest =>
      VStr ("att_" ++ decimal (ms_attachment index) ++ "_" ++ decimal (Z.of_nat index))
      :: attachment_ids_from ms_attachment (S index) rest
  end.

(** [ms_attachment index] is the [Date.now()] reading for that attachment. *)
Definition handleAttachments (ms_attachment : nat -> Z)
  (attachments createdBy : value) : value :=
  match attachments with
  | VArr xs => VArr (attachment_ids_from ms_attachment 0 xs)
  | _ => VArr []
  end.

(** The three helpers called after the insert log [item.id] before their own
    try block and have no other effect. *)
Definition sendNotifications (notificationSettings newItem : value) : M unit :=
  _ <- lift (get newItem "id") ;; ret tt.

Definition logAuditEvent (auditEnabled : value) (eventType : string)
  (item userId : value) : M unit :=
  ret tt.

Definition createBackup (backupEnabled item : value) : M unit :=
  _ <- lift (get item "id") ;; ret tt.

Definition validateUpdatePermissions (permissions userId itemId : value) : bool :=
  if negb (truthy permissions) || negb (Array_isArray permissions) then false
  else
    match permissions with
    | VArr xs =>
        if negb (includes xs "write") && negb (includes xs "admin") then false
        else true
    | _ => false
    end.

(** One pre-processor applied to the copy of the updates. *)
Definition apply_processor (processedUpdates : list (string * value))
  (processor : value) : result (list (string * value)) :=
  match get processor "name" with
  | Throw e => Throw e
  | Ok _ =>
      match get processor "type" with
      | Throw e => Throw e
      | Ok type =>
          if is_string type "sanitize" then
            Ok (map (fun kv =>
                       match snd kv with
                       | VStr s => (fst kv, VStr (trim s))
                       | _ => kv
                       end) processedUpdates)
          else Ok processedUpdates
      end
  end.

Fixpoint apply_processors (processedUpdates : list (string * value))
  (processors : list value) : result (list (string * value)) :=
  match processors with
  | [] => Ok processedUpdates
  | p :: rest =>
      match apply_processor processedUpdates p with
      | Throw e => Throw e
      | Ok next => apply_processors next rest
      end
  end.

Definition applyPreProcessors (updates preProcessors : value) : value :=
  let processedUpdates := spread updates in
  let attempt :=
    match preProcessors with
    | VArr processors => apply_processors processedUpdates processors
    | _ => Ok processedUpdates
    end in
  match attempt with
  | Ok props => VObj props
  | Throw _ => updates
  end.

(** The result object of the custom validation. *)
Record validation : Type := mkValidation {
  isValid : bool;
  errors : list string
}.

(** One custom validator, run on the result so far. *)
Definition apply_validator (data : value) (acc : validation) (validator : value)
  : result validation :=
  match get validator "field" with
  | Throw e => Throw e
  | Ok vfield =>
      if negb (truthy vfield) then Ok acc
      else
        match get_computed data vfield with
        | Throw e => Throw e
        | Ok VUndefined => Ok acc
        | Ok v =>
            let rule := field validator "rule" in
            let required : result validation :=
              if is_string rule "required" then
                let blank : result bool :=
                  if negb (truthy v) then Ok true
                  else match toString v with
                       | Throw e => Throw e
                       | Ok s => Ok (trim s =? "")%string
                       end in
                match blank with
                | Throw e => Throw e
                | Ok false => Ok acc
                | Ok true =>
                    match ToString vfield with
                    | Throw e => Throw e
                    | Ok name =>
                        Ok (mkValidation false (errors acc ++ [name ++ " is required"]))
                    end
                end
              else Ok acc in
            match required with
            | Throw e => Throw e
            | Ok acc1 =>
                if is_string rule "minLength" then
                  match toString v with
                  | Throw e => Throw e
                  | Ok s =>
                      match number_lt (Z.of_nat (String.length s)) (field validator "value") with
                      | Throw e => Throw e
                      | Ok false => Ok acc1
                      | Ok true =>
                          match ToString vfield, ToString (field validator "value") with
                          | Ok name, Ok bound =>
                              Ok (mkValidation false
                                    (errors acc1
                                     ++ [name ++ " must be at least " ++ bound ++ " characters"]))
                          | Throw e, _ | _, Throw e => Throw e
                          end
                      end
                  end
                else Ok acc1
            end
        end
  end.

Fixpoint apply_validators (data : value) (acc : validation)
  (validators : list value) : result validation :=
  match validators with
  | [] => Ok acc
  | v :: rest =>
      match apply_validator data acc v with
      | Throw e => Throw e
      | Ok acc1 => apply_validators data acc1 rest
      end
  end.

Definition validateWithCustomRules (data customValidators : value) : validation :=
  match customValidators with
  | VArr validators =>
      match apply_validators data (mkValidation true []) validators with
      | Ok r => r
      | Throw _ => mkValidation false ["Validation error occurred"]
      end
  | _ => mkValidation true []
  end.

(** The helpers around the update log [currentItem.id] or [updatedItem.id]
    before their own try block and have no other effect. *)
Definition createVersionSnapshot (currentItem userId versioningOptions : value)
  : M unit :=
  _ <- lift (get currentItem "id") ;; ret tt.

Definition handlePostProcessing (updatedItem postProcessors : value) : M unit :=
  _ <- lift (get updatedItem "id") ;; ret tt.

Definition triggerNotifications (notificationOptions updatedItem originalItem : value)
  : M unit :=
  _ <- lift (get updatedItem "id") ;; ret tt.

Definition logAuditTrail (auditOptions : value) (action : string)
  (updatedItem originalItem userId : value) : M unit :=
  ret tt.

(** The read helpers return fixed results. *)
Definition fetchRelatedItems (itemId : value) : value := VArr [].
Definition getItemAttachments (attachmentIds : value) : value := VArr [].
Definition getItemComments (itemId : value) : value := VArr [].
Definition getItemHistory (itemId : value) : value := VArr [].
Definition resolveDependencies (dependencies : value) : value := VArr [].
Definition enrichWithUserData (item : value) : M value :=
  _ <- lift (get item "id") ;; ret item.

(** The cleanup helpers of the delete do nothing; [logDeletion] logs
    [item.id]. *)
Definition cleanupAttachments (attachmentIds : value) : M unit := ret tt.
Definition removeFromCache (itemId : value) : M unit := ret tt.
Definition notifyDependentItems (linkedItems : value) : M unit := ret tt.
Definition archiveAuditLogs (itemId : value) : M unit := ret tt.
Definition logDeletion (item userId : value) : M unit :=
  _ <- lift (get item "id") ;; ret tt.

(** ** Requests and clock readings *)

(** An incoming request: the route parameter, the parsed body, and the
    properties middleware has put on the request object ([user],
    [permissions], [customValidators], ...). *)
Record request : Type := mkRequest {
  params_id : string;
  req_body : value;
  req_props : list (string * value)
}.

Definition req_prop (req : request) (k : string) : value :=
  match lookup k (req_props req) with
  | Some v => v
  | None => VUndefined
  end.

(** The application installs [cors], [express.json] and [morgan] only: no
    middleware sets a property on the request. *)
Definition wired_request (id : string) (body : value) : request :=
  mkRequest id body [].

(** The clock readings of one request. *)
Record clock : Type := mkClock {
  (** the engine's CURRENT_TIMESTAMP *)
  current_timestamp : string;
  (** [new Date().toISOString()] in [processCustomFields] *)
  iso_processedAt : string;
  (** [Date.now()] for the attachment at an index *)
  ms_attachment : nat -> Z;
  (** [new Date().toISOString()] for [created_at] *)
  iso_created_at : string;
  (** [new Date().toISOString()] for [updated_at] *)
  iso_updated_at : string
}.

(** ** The controller *)

(** [const { k, ..., k' = dflt, ... } = options]: the binding of [k] is the
    property of that name, or its default when the property is [undefined]. *)
Definition destructure (defaults : list (string * value)) (options : value)
  (k : string) : value :=
  or_default (field options k)
    (match lookup k defaults with Some dflt => dflt | None => VUndefined end).

(** The destructuring itself throws on [null]. *)
Definition destructurable (options : value) : M unit :=
  _ <- lift (get options "name") ;; ret tt.

Definition create_defaults : list (string * value) :=
  [("customFields", VObj []); ("attachments", VArr []); ("permissions", VArr []);
   ("validationLevel", VStr "standard"); ("notificationSettings", VObj []);
   ("auditEnabled", VBool false); ("backupEnabled", VBool false);
   ("versionControl", VObj []); ("metadata", VObj []);
   ("dependencies", VArr []); ("estimatedHours", VNum 0); ("budget", VNum 0);
   ("location", VStr ""); ("externalRefs", VArr []);
   ("workflowStage", VStr "draft"); ("approvalRequired", VBool false);
   ("templateId", VNull); ("parentItemId", VNull); ("linkedItems", VArr []);
   ("reminderSettings", VObj [])].

(** The object [itemData] of [createDetailedItem]. *)
Definition itemData (h : host) (clk : clock) (options : value)
  : list (string * value) :=
  let arg := destructure create_defaults options in
  let processedFields :=
    processCustomFields h (iso_processedAt clk) (arg "customFields")
      (arg "templateId") in
  let attachmentIds :=
    handleAttachments (ms_attachment clk) (arg "attachments") (arg "createdBy") in
  [("name", arg "name");
   ("description", arg "description");
   ("category", arg "category");
   ("priority", arg "priority");
   ("tags", JSON_stringify (arg "tags"));
   ("status", arg "status");
   ("due_date", arg "dueDate");
   ("assignee", arg "assignee");
   ("created_by", arg "createdBy");
   ("custom_fields", JSON_stringify processedFields);
   ("attachment_ids", JSON_stringify attachmentIds);
   ("metadata", JSON_stringify (arg "metadata"));
   ("dependencies", JSON_stringify (arg "dependencies"));
   ("estimated_hours", arg "estimatedHours");
   ("budget", arg "budget");
   ("location", arg "location");
   ("external_refs", JSON_stringify (arg "externalRefs"));
   ("workflow_stage", arg "workflowStage");
   ("approval_required", arg "approvalRequired");
   ("template_id", arg "templateId");
   ("parent_item_id", arg "parentItemId");
   ("linked_items", JSON_stringify (arg "linkedItems"));
   ("reminder_settings", JSON_stringify (arg "reminderSettings"));
   ("created_at", VStr (iso_created_at clk))].

Definition createDetailedItem (h : host) (clk : clock) (options : value)
  : M response :=
  let options := or_default options (VObj []) in
  destructurable options ;;;
  let arg := destructure create_defaults options in
  try_catch
    (if negb (validatePermissions (arg "permissions") (arg "createdBy"))
     then ret (error_response 403 "Insufficient permissions")
     else
       result <- insert_detail h (current_timestamp clk)
                   (map snd (itemData h clk options)) ;;
       newItem <- select_detail h [VNum (lastInsertRowid result)] ;;
       sendNotifications (arg "notificationSettings") newItem ;;;
       logAuditEvent (arg "auditEnabled") "item_created" newItem (arg "createdBy") ;;;
       createBackup (arg "backupEnabled") newItem ;;;
       ret (mkResponse 201 newItem))
    (fun _ => ret (error_response 500 "Failed to create detailed item")).

Definition update_defaults : list (string * value) :=
  [("userRole", VStr "user"); ("permissions", VArr []);
   ("validationRules", VObj []); ("auditOptions", VObj []);
   ("notificationOptions", VObj []); ("backupOptions", VObj []);
   ("versioningOptions", VObj []); ("conflictResolution", VObj []);
   ("retryPolicy", VObj []); ("timeoutSettings", VObj []);
   ("cachingStrategy", VObj []); ("loggingLevel", VStr "info");
   ("performanceTracking", VBool false); ("securityContext", VObj []);
   ("transactionOptions", VObj []); ("rollbackStrategy", VObj []);
   ("successCallbacks", VArr []); ("errorCallbacks", VArr []);
   ("progressCallbacks", VArr []); ("customValidators", VArr []);
   ("postProcessors", VArr []); ("preProcessors", VArr [])].

(** The permissions [updateItemWithAdvancedOptions] hands to its permission
    check. *)
Definition update_permissions (options : value) : value :=
  destructure update_defaults (or_default options (VObj [])) "permissions".

Definition LF : string := String (ascii_of_nat 10) EmptyString.

(** The text of the UPDATE statement built from the keys of the updates. *)
Definition update_sql (updateFields : list string) : string :=
  let setClause := String.concat ", " (map (fun f => f ++ " = ?") updateFields) in
  LF ++ "        UPDATE item_details SET " ++ setClause
     ++ ", updated_at = ? WHERE id = ?" ++ LF ++ "      ".

Definition updateItemWithAdvancedOptions (h : host) (clk : clock)
  (options : value) : M value :=
  let options := or_default options (VObj []) in
  destructurable options ;;;
  let arg := destructure update_defaults options in
  let itemId := arg "itemId" in
  let userId := arg "userId" in
  try_catch
    (if negb (validateUpdatePermissions (update_permissions options) userId itemId)
     then throw (Error "Access denied")
     else
       let processedUpdates :=
         applyPreProcessors (arg "updates") (arg "preProcessors") in
       let validationResult :=
         validateWithCustomRules processedUpdates (arg "customValidators") in
       if negb (isValid validationResult)
       then throw (Error ("Validation failed: "
                          ++ String.concat ", " (errors validationResult)))
       else
         currentItem <- select_detail h [itemId] ;;
         if negb (truthy currentItem)
         then throw (Error "Item not found")
         else
           enabled <- lift (get (arg "versioningOptions") "enabled") ;;
           (if truthy enabled
            then createVersionSnapshot currentItem userId (arg "versioningOptions")
            else ret tt) ;;;
           updateFields <- lift (Object_keys processedUpdates) ;;
           updateValues <- lift (Object_values processedUpdates) ;;
           let values := (updateValues ++ [itemId])%list in
           changed <- run_dynamic h (update_sql updateFields)
                        (values ++ [VStr (iso_updated_at clk); itemId])%list ;;
           if changed =? 0
           then throw (Error "Update failed - no rows affected")
           else
             updatedItem <- select_detail h [itemId] ;;
             handlePostProcessing updatedItem (arg "postProcessors") ;;;
             triggerNotifications (arg "notificationOptions") updatedItem currentItem ;;;
             logAuditTrail (arg "auditOptions") "item_updated" updatedItem
               currentItem userId ;;;
             ret updatedItem)
    (fun error => throw error).

(** The response object of [getItemWithRelatedData]: the item spread out,
    then the five related-data properties; [dependencies] replaces the column
    of that name. *)
Definition with_related_data (enrichedItem relatedItems attachments comments
  history dependencies : value) : value :=
  VObj (set_prop "dependencies" dependencies
         (set_prop "history" history
           (set_prop "comments" comments
             (set_prop "attachments" attachments
               (set_prop "related_items" relatedItems
                 (spread enrichedItem)))))).

Definition getItemWithRelatedData (h : host) (req : request) : M response :=
  let id := VStr (params_id req) in
  try_catch
    (item <- select_detail h [id] ;;
     if negb (truthy item)
     then ret (error_response 404 "Item not found")
     else
       let relatedItems := fetchRelatedItems (field item "id") in
       let attachments := getItemAttachments (field item "attachment_ids") in
       let comments := getItemComments (field item "id") in
       let history := getItemHistory (field item "id") in
       let dependencies := resolveDependencies (field item "dependencies") in
       enrichedItem <- enrichWithUserData item ;;
       let response :=
         with_related_data enrichedItem relatedItems attachments comments
           history dependencies in
       ret (mkResponse 200 response))
    (fun _ => ret (error_response 500 "Failed to fetch item details")).

Definition deleteItemWithCleanup (h : host) (req : request) : M response :=
  let id := VStr (params_id req) in
  try_catch
    (item <- select_detail h [id] ;;
     attachment_ids <- lift (get item "attachment_ids") ;;
     cleanupAttachments attachment_ids ;;;
     removeFromCache id ;;;
     linked_items <- lift (get item "linked_items") ;;
     notifyDependentItems linked_items ;;;
     archiveAuditLogs id ;;;
     deleteResult <- delete_detail h [id] ;;
     if changes deleteResult =? 0
     then ret (error_response 404 "Item not found")
     else
       user_id <- lift (get (req_prop req "user") "id") ;;
       logDeletion item user_id ;;;
       ret (mkResponse 200 (VObj [("message", VStr "Item deleted successfully")])))
    (fun _ => ret (error_response 500 "Deletion failed")).

(** ** Routes of [app.js] on [item_details] *)

Definition get_api_items_id_details (h : host) (req : request) : M response :=
  try_catch (getItemWithRelatedData h req)
    (fun _ => ret (error_response 500 "Internal server error")).

(** The names the POST route copies from the body into the options. *)
Definition create_option_names : list string :=
  ["name"; "description"; "category"; "priority"; "tags"; "status"; "dueDate";
   "assignee"; "createdBy"; "customFields"; "attachments"; "permissions";
   "validationLevel"; "notificationSettings"; "auditEnabled"; "backupEnabled";
   "versionControl"; "metadata"; "dependencies"; "estimatedHours"; "budget";
   "location"; "externalRefs"; "workflowStage"; "approvalRequired";
   "templateId"; "parentItemId"; "linkedItems"; "reminderSettings"].

Definition post_options (body : value) : value :=
  VObj (map (fun k => (k, field body k)) create_option_names).

Definition post_api_items_details (h : host) (clk : clock) (req : request)
  : M response :=
  try_catch
    (destructurable (req_body req) ;;;
     createDetailedItem h clk (post_options (req_body req)))
    (fun _ => ret (error_response 500 "Failed to create detailed item")).

(** [req.user?.k || dflt]. *)
Definition user_or (req : request) (k dflt : string) : value :=
  let user := req_prop req "user" in
  js_or (match user with
         | VUndefined | VNull => VUndefined
         | _ => field user k
         end) (VStr dflt).

(** The options the PUT route hands to the controller. *)
Definition put_options (req : request) : value :=
  VObj ([("itemId", VStr (params_id req));
         ("updates", req_body req);
         ("userId", user_or req "id" "anonymous");
         ("userRole", user_or req "role" "user")]
        ++ map (fun k => (k, req_prop req k))
             ["permissions"; "validationRules"; "auditOptions";
              "notificationOptions"; "backupOptions"; "versioningOptions";
              "conflictResolution"; "retryPolicy"; "timeoutSettings";
              "cachingStrategy"; "loggingLevel"; "performanceTracking";
              "securityContext"; "transactionOptions"; "rollbackStrategy";
              "successCallbacks"; "errorCallbacks"; "progressCallbacks";
              "customValidators"; "postProcessors"; "preProcessors"])%list.

Definition put_api_items_id_details (h : host) (clk : clock) (req : request)
  : M response :=
  try_catch
    (result <- updateItemWithAdvancedOptions h clk (put_options req) ;;
     ret (mkResponse 200 result))
    (fun _ => ret (error_response 500 "Failed to update detailed item")).

Definition delete_api_items_id_details (h : host) (req : request) : M response :=
  try_catch (deleteItemWithCleanup h req)
    (fun _ => ret (error_response 500 "Failed to delete detailed item")).

(** ** The vocabulary of the specification *)

(** The fixed sets of the three enumerated fields. *)
Definition categories : list string := ["work"; "personal"; "urgent"].
Definition priorities : list string := ["low"; "medium"; "high"; "critical"].
Definition statuses : list string := ["active"; "pending"; "completed"; "cancelled"].

Definition in_enum (enum : list string) (v : value) : bool :=
  match v with
  | VStr s => existsb (String.eqb s) enum
  | _ => false
  end.

(** A name the specification rejects: missing, not a string, or blank after
    trimming (empty or whitespace-only). *)
Definition spec_name_invalid (name : value) : bool :=
  match name with
  | VStr s => whitespace_only s
  | _ => true
  end.

(** A supplied field the specification rejects on an ItemDetail update. *)
Definition spec_field_invalid (kv : string * value) : bool :=
  let '(k, v) := kv in
  if (k =? "name")%string then spec_name_invalid v
  else if (k =? "category")%string then negb (in_enum categories v)
  else if (k =? "priority")%string then negb (in_enum priorities v)
  else if (k =? "status")%string then negb (in_enum statuses v)
  else false.

Definition spec_has_invalid_field (payload : value) : bool :=
  existsb spec_field_invalid (spread payload).

(** The documented fields of an ItemDetail, under their column names. *)
Definition documented_fields : list string :=
  ["id"; "name"; "description"; "category"; "priority"; "status"; "assignee";
   "location"; "workflow_stage"; "tags"; "custom_fields"; "metadata";
   "dependencies"; "external_refs"; "linked_items"; "reminder_settings";
   "attachment_ids"; "due_date"; "estimated_hours"; "budget";
   "approval_required"; "template_id"; "parent_item_id"; "created_by";
   "created_at"; "updated_at"].

(** What a row holds in a column, if the row exists. *)
Definition stored (d : db) (id : Z) (c : string) : option sqlval :=
  match find_detail id d with
  | Some r => Some (column c (detail_cols r))
  | None => None
  end.

(** The text under which a structured value is stored and read back:
    [JSON.stringify] of it, NULL when that is [undefined]. *)
Definition stored_text (v : value) : value :=
  match stringify v with
  | Some t => VStr t
  | None => VNull
  end.

(** Values the driver binds as one parameter each. *)
Definition scalar (v : value) : bool :=
  match v with
  | VUndefined | VNull | VNum _ | VStr _ => true
  | VBool _ | VArr _ | VObj _ => false
  end.

(** The storage value of a scalar. *)
Definition sql_of (v : value) : sqlval :=
  match v with
  | VNum n => SNum n
  | VStr s => SText s
  | _ => SNull
  end.

(** The store once the rows with a given id are gone from [item_details]. *)
Definition without_detail (n : Z) (d : db) : db :=
  mkDb (items d) (items_seq d)
       (filter (fun r => negb (detail_id r =? n)) (item_details d))
       (item_details_seq d).

(** The options [createDetailedItem] hands to the driver as they are. *)
Definition raw_option_names : list string :=
  ["name"; "description"; "category"; "priority"; "status"; "dueDate";
   "assignee"; "createdBy"; "estimatedHours"; "budget"; "location";
   "workflowStage"; "approvalRequired"; "templateId"; "parentItemId"].

(** The row an accepted create stores, and the store with it. *)
Definition created_detail (h : host) (clk : clock) (options : value) (d : db)
  : detail :=
  mkDetail (next_rowid (item_details_seq d) (map detail_id (item_details d)))
    (store_columns h insert_columns (map sql_of (map snd (itemData h clk options)))
     ++ [("updated_at", SText (current_timestamp clk))]).

Definition with_detail (row : detail) (d : db) : db :=
  mkDb (items d) (items_seq d) (item_details d ++ [row]) (detail_id row).

(** Plain column names: letters, digits and underscores, not starting with
    a digit. *)
Definition identifier_char (c : ascii) : bool :=
  let n := N_of_ascii c in
  ((48 <=? n) && (n <=? 57) || (65 <=? n) && (n <=? 90)
   || (97 <=? n) && (n <=? 122) || (n =? 95))%N.

Fixpoint identifier_chars (s : string) : bool :=
  match s with
  | EmptyString => true
  | String c r => identifier_char c && identifier_chars r
  end.

Definition identifier (s : string) : bool :=
  match s with
  | EmptyString => false
  | String c _ =>
      negb ((48 <=? N_of_ascii c) && (N_of_ascii c <=? 57))%N && identifier_chars s
  end.

(** The driver refuses a call whose values are not as many as the
    placeholders of the statement, before it runs the statement.  For the
    UPDATE text built from plain column names the placeholders are one per
    name and two more, for [updated_at] and [id]. *)
Definition checks_arity (h : host) : Prop :=
  forall fields args d,
    forallb identifier fields = true ->
    forallb scalar args = true ->
    List.length args <> (List.length fields + 2)%nat ->
    snd (run_dynamic h (update_sql fields) args d) = d.

(** ** A host, a clock and a store to evaluate requests on *)

(** Canonical integer numerals: an optional minus sign and decimal digits. *)
Definition integer_numeral (s : string) : option Z :=
  match s with
  | String "-" r =>
      if all_digits 10 r
      then match read_digits 10 r false 0 with Some n => Some (- n) | None => None end
      else None
  | _ => if all_digits 10 s then read_digits 10 s false 0 else None
  end.

(** A host for the requests evaluated below: numbers stored as text are
    rendered as reals, integer numerals convert to numbers.  None of those
    requests reaches [JSON.parse] or the dynamic statement, which this host
    rejects. *)
Definition sample_host : host :=
  mkHost (fun n => decimal n ++ ".0") integer_numeral
         (fun _ => Throw SyntaxError)
         (fun _ _ d => (Throw RangeError, d)).

Definition sample_clock : clock :=
  mkClock "2024-05-01 10:00:00" "2024-05-01T10:00:00.000Z"
          (fun _ => 1714557600000) "2024-05-01T10:00:00.001Z"
          "2024-05-01T10:00:00.002Z".

Definition sample_db : db :=
  initial_db (fun _ => "2024-05-01 09:00:00") "2024-05-01T09:00:00.000Z"
             "2024-05-01T09:00:00.001Z".

(** The body of the scenario of the specification. *)
Definition launch_body : value :=
  VObj [("name", VStr "Launch"); ("category", VStr "work");
        ("priority", VStr "high")].

(** The scenario body with the permissions the create requires and a numeric
    approval flag. *)
Definition launch_body_permitted : value :=
  VObj [("name", VStr "Launch"); ("category", VStr "work");
        ("priority", VStr "high");
        ("permissions", VArr [VStr "read"; VStr "write"]);
        ("approvalRequired", VNum 0)].

(** Bodies of the requests evaluated below. *)
Definition out_of_enum_body : value :=
  VObj [("name", VStr "Launch"); ("category", VStr "not-a-real-category");
        ("permissions", VArr [VStr "read"; VStr "write"]);
        ("approvalRequired", VNum 0)].

(** The same body with a number for the priority; it has no status. *)
Definition mixed_enum_body : value :=
  VObj [("name", VStr "Launch"); ("category", VStr "not-a-real-category");
        ("priority", VNum 5);
        ("permissions", VArr [VStr "read"; VStr "write"]);
        ("approvalRequired", VNum 0)].

Definition tagged_body : value :=
  VObj [("name", VStr "Launch"); ("tags", VArr [VStr "a"; VStr "b"]);
        ("permissions", VArr [VStr "read"; VStr "write"]);
        ("approvalRequired", VNum 0)].

Definition invalid_update_body : value :=
  VObj [("name", VStr "Renamed"); ("category", VStr "not-a-real-category")].

(** The properties [getItemWithRelatedData] adds or replaces. *)
Definition related_data_names : list string :=
  ["related_items"; "attachments"; "comments"; "history"; "dependencies"].

(** ** Well-formed stores and sequences of requests *)

(** The row ids of a table are pairwise distinct and none exceeds the
    AUTOINCREMENT high-water mark. *)
Definition ids_wf (ids : list Z) (seq : Z) : Prop :=
  NoDup ids /\ Forall (fun id => id <= seq) ids.

Definition store_wf (d : db) : Prop :=
  ids_wf (map item_id (items d)) (items_seq d)
  /\ ids_wf (map detail_id (item_details d)) (item_details_seq d).

(** A request to the application as wired: the route, its parameter or body,
    and the clock readings of its handler. *)
Inductive api_call : Type :=
| PostItem (current_timestamp : string) (payload : value)
| DeleteItem (id : string)
| GetDetails (id : string)
| PostDetails (clk : clock) (payload : value)
| PutDetails (clk : clock) (id : string) (payload : value)
| DeleteDetails (id : string).

Definition serve (h : host) (call : api_call) : M response :=
  match call with
  | PostItem current_timestamp payload => post_api_items h current_timestamp payload
  | DeleteItem id => delete_api_items_id h id
  | GetDetails id => get_api_items_id_details h (wired_request id (VObj []))
  | PostDetails clk payload => post_api_items_details h clk (wired_request "" payload)
  | PutDetails clk id payload => put_api_items_id_details h clk (wired_request id payload)
  | DeleteDetails id => delete_api_items_id_details h (wired_request id (VObj []))
  end.

(** The store after a sequence of requests, served one after the other. *)
Fixpoint serve_all (h : host) (calls : list api_call) (d : db) : db :=
  match calls with
  | [] => d
  | call :: rest => serve_all h rest (snd (serve h call d))
  end.

(** The store with one more row of [items]. *)
Definition with_item (row : item) (d : db) : db :=
  mkDb (items d ++ [row]) (item_id row) (item_details d) (item_details_seq d).

(** The store once the rows with a given id are gone from [items]. *)
Definition without_item (n : Z) (d : db) : db :=
  mkDb (filter (fun it => negb (item_id it =? n)) (items d)) (items_seq d)
       (item_details d) (item_details_seq d).

(** The part of a text after its first underscore (empty when it has none):
    applied twice to an attachment id it leaves the index. *)
Fixpoint after_underscore (s : string) : string :=
  match s with
  | EmptyString => EmptyString
  | String c r => if (N_of_ascii c =? 95)%N then r else after_underscore r
  end.

(** What a sanitizing pre-processor makes of a value. *)
Definition sanitized (v : value) : value :=
  match v with
  | VStr s => VStr (trim s)
  | _ => v
  end.

(** A validation result is consistent when it is valid exactly if it lists
    no error. *)
Definition consistent (r : validation) : Prop :=
  isValid r = true <-> errors r = [].

(** ** Client-side checks

    The checks the frontend runs before it calls the API. *)

(** [names.includes(v)] for an array of strings. *)
Definition one_of (names : list string) (v : value) : bool :=
  existsb (is_string v) names.

(** [!name || typeof name !== 'string' || name.trim() === ''], the name rule
    of the client checks. *)
Definition name_missing (name : value) : bool :=
  negb (truthy name) || negb (typeof name =? "string")%string
  || (match name with VStr s => (trim s =? "")%string | _ => false end).

Module ItemService.

Definition validateItemData (itemData : value) : bool :=
  if negb (truthy itemData) || negb (typeof itemData =? "object")%string
  then false
  else if name_missing (field itemData "name") then false
  else if truthy (field itemData "category")
          && negb (one_of ["work"; "personal"; "urgent"] (field itemData "category"))
  then false
  else true.

Definition validateUserPermissions (userPermissions itemId : value) : bool :=
  if negb (truthy userPermissions) || negb (Array_isArray userPermissions)
  then false
  else
    let requiredPermissions := ["read"; "write"] in
    let hasRequired :=
      forallb (fun perm => match userPermissions with
                           | VArr xs => includes xs perm
                           | _ => false
                           end) requiredPermissions in
    if negb hasRequired then false else true.

End ItemService.

Module App.

Definition validateItemData (itemData : value) : bool :=
  if negb (truthy itemData) || negb (typeof itemData =? "object")%string
  then false
  else if name_missing (field itemData "name") then false
  else if truthy (field itemData "category")
          && negb (one_of ["work"; "personal"; "urgent"] (field itemData "category"))
  then false
  else if truthy (field itemData "priority")
          && negb (one_of ["low"; "medium"; "high"; "critical"]
                     (field itemData "priority"))
  then false
  else if truthy (field itemData "status")
          && negb (one_of ["active"; "pending"; "completed"; "cancelled"]
                     (field itemData "status"))
  then false
  else true.

End App.

(** The property names a plain object inherits from [Object.prototype]; a
    computed read of one of them finds a value although the object has no
    such property of its own. *)
Definition Object_prototype_names : list string :=
  ["constructor"; "__proto__"; "hasOwnProperty"; "isPrototypeOf";
   "propertyIsEnumerable"; "toLocaleString"; "toString"; "valueOf";
   "__defineGetter__"; "__defineSetter__"; "__lookupGetter__";
   "__lookupSetter__"].

(** ** Requests evaluated below *)

Definition nameless_body : value :=
  VObj [("category", VStr "work");
        ("permissions", VArr [VStr "read"; VStr "write"]);
        ("approvalRequired", VNum 0)].

Definition flagless_body : value :=
  VObj [("name", VStr "Launch");
        ("permissions", VArr [VStr "read"; VStr "write"])].

Definition padded_updates : value :=
  VObj [("name", VStr "  Launch  "); ("budget", VNum 5)].

Definition sanitize_processors : list value :=
  [VObj [("name", VStr "tidy"); ("type", VStr "sanitize")]].

Definition permitted_update : value :=
  VObj [("itemId", VNum 1);
        ("updates", VObj [("name", VStr "Renamed")]);
        ("userId", VStr "alice");
        ("permissions", VArr [VStr "write"])].

Definition user_request (id : string) : request :=
  mkRequest id (VObj []) [("user", VObj [("id", VStr "alice")])].

(** * Properties *)

(** ** Strings and row ids *)

Lemma trimEnd_not_space (c : ascii) (r : string) :
  is_space c = false -> trimEnd (String c r) <> EmptyString.
Proof.
  intros Hc. simpl. destruct (trimEnd r); [rewrite Hc|]; discriminate.
Qed.

Lemma trim_blank_iff (s : string) :
  trim s = EmptyString <-> whitespace_only s = true.
Proof.
  unfold trim. induction s as [|c r IH]; simpl.
  - split; reflexivity.
  - destruct (is_space c) eqn:Hc; simpl.
    + exact IH.
    + split; [|discriminate].
      intros H. exfalso. revert H. change (trimEnd (String c r) <> EmptyString).
      now apply trimEnd_not_space.
Qed.

Lemma trim_eqb_blank (s : string) :
  (trim s =? "")%string = whitespace_only s.
Proof.
  destruct (whitespace_only s) eqn:Hw.
  - apply String.eqb_eq. now apply trim_blank_iff.
  - apply String.eqb_neq. intros H. apply trim_blank_iff in H. congruence.
Qed.

Lemma fold_max_ge_seq (seq : Z) (ids : list Z) :
  seq <= fold_right Z.max seq ids.
Proof. induction ids as [|x xs IH]; simpl; lia. Qed.

Lemma fold_max_ge_In (seq : Z) (ids : list Z) (x : Z) :
  In x ids -> x <= fold_right Z.max seq ids.
Proof.
  induction ids as [|y ys IH]; simpl; [tauto|].
  intros [->|H]; [lia|]. specialize (IH H). lia.
Qed.

Lemma next_rowid_fresh (seq : Z) (ids : list Z) (x : Z) :
  In x ids -> x < next_rowid seq ids.
Proof. intros H. unfold next_rowid. pose proof (fold_max_ge_In seq ids x H). lia. Qed.

Lemma find_none_app {A} (p : A -> bool) (l : list A) (x : A) :
  (forall y, In y l -> p y = false) ->
  find p (l ++ [x]) = if p x then Some x else None.
Proof.
  induction l as [|y ys IH]; simpl; intros H; [reflexivity|].
  rewrite (H y (or_introl eq_refl)). apply IH. intros z Hz. apply H. now right.
Qed.

Lemma filter_none {A} (p : A -> bool) (l : list A) :
  (forall y, In y l -> p y = true) -> filter p l = l.
Proof.
  induction l as [|y ys IH]; simpl; intros H; [reflexivity|].
  rewrite (H y (or_introl eq_refl)). f_equal. apply IH. intros z Hz. apply H. now right.
Qed.

Lemma find_item_fresh (d : db) (row : item) :
  item_id row = next_rowid (items_seq d) (map item_id (items d)) ->
  find (fun it => item_id it =? item_id row) (items d ++ [row]) = Some row.
Proof.
  intros Hid. rewrite find_none_app.
  - now rewrite Z.eqb_refl.
  - intros y Hy. apply Z.eqb_neq.
    pose proof (next_rowid_fresh (items_seq d) (map item_id (items d)) (item_id y)
                  (in_map item_id _ _ Hy)). lia.
Qed.

(** ** Item create and delete *)

(** C9.  Item create answers 400 and leaves the store as it was when the name
    is missing, not a string or blank after trimming; for every other string
    name it adds exactly one row and answers 201 with the stored record: the
    assigned id, the name and the creation timestamp. *)
Theorem post_item_validates_name (h : host) (ts : string)
  (req_body name : value) (d : db) :
  get req_body "name" = Ok name ->
  (spec_name_invalid name = true ->
   post_api_items h ts req_body d
   = (Ok (error_response 400 "Item name is required"), d))
  /\
  (forall s, name = VStr s -> whitespace_only s = false ->
   let row := mkItem (next_rowid (items_seq d) (map item_id (items d))) s ts in
   post_api_items h ts req_body d
   = (Ok (mkResponse 201 (js_of_item row)),
      mkDb (items d ++ [row]) (item_id row) (item_details d) (item_details_seq d))).
Proof.
  intros Hget. unfold post_api_items, try_catch, bind, lift. rewrite Hget. split.
  - intros Hinv. destruct name as [| |b|n|s|xs|props]; simpl in *; try reflexivity.
    + now destruct b.
    + now destruct (n =? 0).
    + rewrite trim_eqb_blank, Hinv. now rewrite !orb_true_r.
  - intros s -> Hw.
    assert (Hne : (s =? "")%string = false).
    { destruct s; [discriminate Hw | reflexivity]. }
    set (row := mkItem (next_rowid (items_seq d) (map item_id (items d))) s ts).
    simpl. rewrite Hne, trim_eqb_blank, Hw. simpl.
    unfold insertStmt_run, select_item, ret. simpl.
    fold row. change (next_rowid (items_seq d) (map item_id (items d))) with (item_id row).
    rewrite (find_item_fresh d row eq_refl). reflexivity.
Qed.

Lemma post_item_validates_name_witness :
  get (VObj [("name", VStr "Buy milk")]) "name" = Ok (VStr "Buy milk")
  /\ post_api_items sample_host "2024-05-01 10:00:00"
       (VObj [("name", VStr "Buy milk")]) sample_db
     = (Ok (mkResponse 201
              (VObj [("id", VNum 4); ("name", VStr "Buy milk");
                     ("created_at", VStr "2024-05-01 10:00:00")])),
        mkDb (items sample_db ++ [mkItem 4 "Buy milk" "2024-05-01 10:00:00"]) 4
             (item_details sample_db) (item_details_seq sample_db)).
Proof.
  split; [reflexivity|].
  exact (proj2 (post_item_validates_name sample_host "2024-05-01 10:00:00"
                  (VObj [("name", VStr "Buy milk")]) (VStr "Buy milk") sample_db
                  eq_refl)
               "Buy milk" eq_refl eq_refl).
Defined.

Lemma parseInt_nonempty (id : string) (n : Z) :
  parseInt id = Some n -> truthy (VStr id) = true.
Proof. destruct id; [discriminate | reflexivity]. Qed.

Lemma delete_item_absent (h : host) (n : Z) (d : db) :
  (forall it, In it (items d) -> item_id it <> n) ->
  delete_item h [VNum n] d = (Ok (mkRunInfo 0 0), d).
Proof.
  intros Habs. unfold delete_item. simpl.
  rewrite filter_none.
  - rewrite Nat.sub_diag. now destruct d.
  - intros it Hit. apply negb_true_iff, Z.eqb_neq. now apply Habs.
Qed.

Lemma filter_length_lt {A} (p : A -> bool) (l : list A) :
  (List.length (filter p l) <= List.length l)%nat.
Proof. induction l as [|x xs IH]; simpl; [lia|]. destruct (p x); simpl; lia. Qed.

(** C10, as stated, fails: an id that does not parse as an integer is answered
    400, a validation error, and not 404. *)
Lemma delete_item_unparsable_id_is_400 :
  parseInt "abc" = None
  /\ delete_api_items_id sample_host "abc" sample_db
     = (Ok (error_response 400 "Valid item ID is required"), sample_db)
  /\ status (error_response 400 "Valid item ID is required") <> 404.
Proof. repeat split. discriminate. Qed.

(** C10, amended.  Item delete answers 400 when [parseInt] reads no integer
    from the id, and 404 when it reads an integer that no row has; in both
    cases the store is left as it was.  Repeating a delete that succeeded is
    answered 404 and changes nothing. *)
Theorem delete_item_missing (h : host) (id : string) (d : db) :
  (parseInt id = None ->
   delete_api_items_id h id d
   = (Ok (error_response 400 "Valid item ID is required"), d))
  /\
  (forall n, parseInt id = Some n ->
   (forall it, In it (items d) -> item_id it <> n) ->
   delete_api_items_id h id d = (Ok (error_response 404 "Item not found"), d))
  /\
  (forall r d1, delete_api_items_id h id d = (Ok r, d1) -> status r = 200 ->
   delete_api_items_id h id d1 = (Ok (error_response 404 "Item not found"), d1)).
Proof.
  assert (Habsent : forall d0 n, parseInt id = Some n ->
            (forall it, In it (items d0) -> item_id it <> n) ->
            delete_api_items_id h id d0
            = (Ok (error_response 404 "Item not found"), d0)).
  { intros d0 n Hp Habs. unfold delete_api_items_id, try_catch, bind.
    rewrite Hp, (parseInt_nonempty id n Hp). cbn [negb orb].
    now rewrite (delete_item_absent h n d0 Habs). }
  split; [|split].
  - intros Hp. unfold delete_api_items_id, try_catch, bind. rewrite Hp.
    now rewrite orb_true_r.
  - intros n. apply Habsent.
  - intros r d1 Hrun H200.
    destruct (parseInt id) as [n|] eqn:Hp.
    + apply (Habsent d1 n eq_refl).
      revert Hrun. unfold delete_api_items_id, try_catch, bind.
      rewrite Hp, (parseInt_nonempty id n Hp). simpl.
      destruct (Z.of_nat _ =? 0); simpl; unfold ret; intros Hrun;
        inversion Hrun; subst; simpl in *; try discriminate.
      intros it Hit. apply filter_In in Hit. destruct Hit as [_ Hne].
      now apply negb_true_iff, Z.eqb_neq in Hne.
    + revert Hrun. unfold delete_api_items_id, try_catch, bind. rewrite Hp.
      rewrite orb_true_r. unfold ret. intros Hrun. inversion Hrun; subst.
      discriminate.
Qed.

Lemma delete_item_missing_witness :
  parseInt "999999" = Some 999999
  /\ delete_api_items_id sample_host "999999" sample_db
     = (Ok (error_response 404 "Item not found"), sample_db).
Proof.
  split; [reflexivity|].
  apply (proj1 (proj2 (delete_item_missing sample_host "999999" sample_db)) 999999).
  - reflexivity.
  - simpl. intros it [<-|[<-|[<-|[]]]]; discriminate.
Defined.

(** ** The driver and the [item_details] statements *)

Lemma bind_args_scalars (vs : list value) (b : bool) :
  forallb scalar vs = true -> bind_args vs b = Ok (map sql_of vs).
Proof.
  induction vs as [|v rest IH]; simpl; [reflexivity|].
  intros H. apply andb_true_iff in H. destruct H as [Hv Hrest].
  rewrite (IH Hrest). now destruct v.
Qed.

Lemma bind_parameters_scalars (n : nat) (vs : list value) :
  forallb scalar vs = true -> List.length vs = n ->
  bind_parameters n vs = Ok (map sql_of vs).
Proof.
  intros Hs Hn. unfold bind_parameters. rewrite (bind_args_scalars vs false Hs).
  rewrite length_map, Hn, Nat.eqb_refl. reflexivity.
Qed.

Lemma scalar_JSON_stringify (v : value) : scalar (JSON_stringify v) = true.
Proof. unfold JSON_stringify. now destruct (stringify v). Qed.

Lemma js_of_sql_JSON_stringify (h : host) (v : value) :
  js_of_sql (coerce h AffText (sql_of (JSON_stringify v))) = stored_text v.
Proof. unfold JSON_stringify, stored_text. now destruct (stringify v). Qed.

Lemma select_detail_text (h : host) (id : string) (d : db) :
  select_detail h [VStr id] d
  = (Ok (match text_as_num h id with
         | Some n =>
             match find_detail n d with
             | Some r => js_of_detail r
             | None => VUndefined
             end
         | None => VUndefined
         end), d).
Proof.
  unfold select_detail. simpl.
  destruct (text_as_num h id) as [n|]; [|reflexivity].
  now destruct (find_detail n d).
Qed.

Lemma select_detail_num (h : host) (n : Z) (d : db) :
  select_detail h [VNum n] d
  = (Ok (match find_detail n d with
         | Some r => js_of_detail r
         | None => VUndefined
         end), d).
Proof. unfold select_detail. simpl. now destruct (find_detail n d). Qed.

Lemma find_detail_fresh (d : db) (row : detail) (seq : Z) :
  detail_id row = next_rowid (item_details_seq d) (map detail_id (item_details d)) ->
  find_detail (detail_id row)
    (mkDb (items d) (items_seq d) (item_details d ++ [row]) seq) = Some row.
Proof.
  intros Hid. unfold find_detail. simpl. rewrite find_none_app.
  - now rewrite Z.eqb_refl.
  - intros y Hy. apply Z.eqb_neq.
    pose proof (next_rowid_fresh (item_details_seq d) (map detail_id (item_details d))
                  (detail_id y) (in_map detail_id _ _ Hy)). lia.
Qed.

Lemma find_filter_negb {A} (p : A -> bool) (l : list A) :
  find p (filter (fun x => negb (p x)) l) = None.
Proof.
  induction l as [|x xs IH]; simpl; [reflexivity|].
  destruct (p x) eqn:Hp; simpl; [exact IH|]. now rewrite Hp.
Qed.

Lemma filter_negb_shorter {A} (p : A -> bool) (l : list A) (x : A) :
  find p l = Some x ->
  (List.length (filter (fun y => negb (p y)) l) < List.length l)%nat.
Proof.
  induction l as [|y ys IH]; simpl; [discriminate|].
  destruct (p y) eqn:Hp; simpl.
  - intros _. pose proof (filter_length_lt (fun y => negb (p y)) ys). lia.
  - intros H. specialize (IH H). lia.
Qed.

Lemma delete_detail_present (h : host) (id : string) (n : Z) (r : detail) (d : db) :
  text_as_num h id = Some n -> find_detail n d = Some r ->
  exists info, delete_detail h [VStr id] d = (Ok info, without_detail n d)
               /\ (changes info =? 0) = false.
Proof.
  intros Hid Hr. unfold delete_detail. simpl. rewrite Hid.
  eexists. split; [reflexivity|]. simpl. apply Z.eqb_neq.
  pose proof (filter_negb_shorter (fun r => detail_id r =? n) (item_details d) r Hr).
  lia.
Qed.

(** ** ItemDetail delete *)

(** C6.  When no row matches the id, the delete handler reads a column of the
    missing row before it runs the DELETE: the request is answered 500
    "Deletion failed", not 404, and the store is left as it was. *)
Theorem delete_detail_missing_answers_500 (h : host) (req : request) (d : db) :
  (forall n, text_as_num h (params_id req) = Some n -> find_detail n d = None) ->
  delete_api_items_id_details h req d
  = (Ok (error_response 500 "Deletion failed"), d).
Proof.
  intros Hmiss.
  unfold delete_api_items_id_details, deleteItemWithCleanup, try_catch, bind.
  rewrite select_detail_text.
  destruct (text_as_num h (params_id req)) as [n|] eqn:Hid; [|reflexivity].
  now rewrite (Hmiss n eq_refl).
Qed.

Lemma delete_detail_missing_answers_500_witness :
  delete_api_items_id_details sample_host (wired_request "999999" (VObj [])) sample_db
  = (Ok (error_response 500 "Deletion failed"), sample_db).
Proof.
  apply (delete_detail_missing_answers_500 sample_host
           (wired_request "999999" (VObj [])) sample_db).
  intros n Hn. vm_compute in Hn. injection Hn as <-. reflexivity.
Defined.

(** C7.  On the application as wired, a delete whose row exists removes the
    row and then fails on [req.user.id]: the row is gone and the request is
    answered 500 "Deletion failed". *)
Theorem delete_detail_present_answers_500 (h : host) (id : string) (payload : value)
  (n : Z) (r : detail) (d : db) :
  text_as_num h id = Some n -> find_detail n d = Some r ->
  delete_api_items_id_details h (wired_request id payload) d
  = (Ok (error_response 500 "Deletion failed"), without_detail n d)
  /\ find_detail n (without_detail n d) = None.
Proof.
  intros Hid Hr. split.
  - unfold delete_api_items_id_details, deleteItemWithCleanup, try_catch, bind.
    cbn [params_id wired_request].
    rewrite select_detail_text, Hid, Hr.
    destruct (delete_detail_present h id n r d Hid Hr) as [info [Hdel Hch]].
    cbn -[delete_detail]. rewrite Hdel, Hch. reflexivity.
  - unfold find_detail, without_detail. simpl. apply find_filter_negb.
Qed.

Lemma delete_detail_present_answers_500_witness :
  delete_api_items_id_details sample_host (wired_request "1" (VObj [])) sample_db
  = (Ok (error_response 500 "Deletion failed"), without_detail 1 sample_db)
  /\ find_detail 1 (without_detail 1 sample_db) = None.
Proof.
  eapply (delete_detail_present_answers_500 sample_host "1" (VObj []) 1);
    reflexivity.
Defined.

(** ** ItemDetail update through the PUT route *)

Lemma update_wired_denied (h : host) (clk : clock) (id : string) (payload : value)
  (d : db) :
  updateItemWithAdvancedOptions h clk (put_options (wired_request id payload)) d
  = (Throw (Error "Access denied"), d).
Proof. reflexivity. Qed.

Lemma put_wired_rejected (h : host) (clk : clock) (id : string) (payload : value)
  (d : db) :
  put_api_items_id_details h clk (wired_request id payload) d
  = (Ok (error_response 500 "Failed to update detailed item"), d).
Proof. reflexivity. Qed.

(** C4, as stated, fails in one point: the permission check of the update does
    not receive [undefined].  The route passes the [undefined] of
    [req.permissions], and the destructuring default of the controller
    replaces it by the empty array. *)
Lemma update_permission_check_receives_empty_array :
  req_prop (wired_request "1" (VObj [("name", VStr "Renamed")])) "permissions"
  = VUndefined
  /\ update_permissions
       (put_options (wired_request "1" (VObj [("name", VStr "Renamed")])))
     = VArr []
  /\ VArr [] <> VUndefined.
Proof. repeat split. discriminate. Qed.

(** C4, amended.  For every request on the route as wired, whatever the id and
    the payload: the permission check receives the empty array, the default of
    the destructuring; [validateUpdatePermissions] returns false;
    [updateItemWithAdvancedOptions] throws "Access denied" with the store
    untouched; the route answers 500.  No update succeeds through the route. *)
Theorem put_route_never_updates (h : host) (clk : clock) (id : string)
  (payload : value) (d : db) :
  let options := put_options (wired_request id payload) in
  update_permissions options = VArr []
  /\ validateUpdatePermissions (update_permissions options)
       (destructure update_defaults options "userId")
       (destructure update_defaults options "itemId") = false
  /\ updateItemWithAdvancedOptions h clk options d
     = (Throw (Error "Access denied"), d)
  /\ put_api_items_id_details h clk (wired_request id payload) d
     = (Ok (error_response 500 "Failed to update detailed item"), d).
Proof. repeat split. Qed.

(** C2.  A PUT whose payload holds an invalid field persists none of its
    fields: the update is refused at the permission check, before any
    statement runs, and a later GET of any id answers what it answered
    before.  (The conclusion holds for every payload: see C4.) *)
Theorem put_with_invalid_field_persists_nothing (h : host) (clk : clock)
  (id : string) (payload : value) (d : db) :
  spec_has_invalid_field payload = true ->
  updateItemWithAdvancedOptions h clk (put_options (wired_request id payload)) d
  = (Throw (Error "Access denied"), d)
  /\ exists r,
       put_api_items_id_details h clk (wired_request id payload) d = (Ok r, d)
       /\ status r <> 200
       /\ forall get_req,
            get_api_items_id_details h get_req
              (snd (put_api_items_id_details h clk (wired_request id payload) d))
            = get_api_items_id_details h get_req d.
Proof.
  intros _. split; [apply update_wired_denied|].
  exists (error_response 500 "Failed to update detailed item").
  rewrite put_wired_rejected. repeat split. discriminate.
Qed.

Lemma put_with_invalid_field_persists_nothing_witness :
  spec_has_invalid_field invalid_update_body = true
  /\ updateItemWithAdvancedOptions sample_host sample_clock
       (put_options (wired_request "1" invalid_update_body)) sample_db
     = (Throw (Error "Access denied"), sample_db)
  /\ exists r,
       put_api_items_id_details sample_host sample_clock
         (wired_request "1" invalid_update_body) sample_db = (Ok r, sample_db)
       /\ status r <> 200.
Proof.
  split; [reflexivity|].
  destruct (put_with_invalid_field_persists_nothing sample_host sample_clock "1"
              invalid_update_body sample_db eq_refl)
    as [Hdenied [r [Hput [Hstatus _]]]].
  split; [exact Hdenied|]. exists r. split; assumption.
Defined.

Lemma columns_are_documented :
  forallb (fun c => existsb (String.eqb c) documented_fields)
          ("id" :: map fst detail_columns) = true.
Proof. reflexivity. Qed.

(** C8.  Through the PUT route no key of a payload reaches a column: a key
    outside the documented fields is refused together with the request, and
    every column of every row other than the documented fields named in the
    payload and [updated_at] holds after the request what it held before. *)
Theorem put_changes_no_undocumented_column (h : host) (clk : clock) (id : string)
  (payload : value) (d : db) :
  let outcome := put_api_items_id_details h clk (wired_request id payload) d in
  (forall k, In k (map fst (spread payload)) -> ~ In k documented_fields ->
   exists r, fst outcome = Ok r /\ status r <> 200)
  /\
  (forall row c,
   ~ (In c documented_fields /\ In c (map fst (spread payload))) ->
   c <> "updated_at" ->
   stored (snd outcome) row c = stored d row c)
  /\ item_details (snd outcome) = item_details d.
Proof.
  intros outcome. unfold outcome. rewrite put_wired_rejected. simpl.
  repeat split. intros k _ _. eexists. split; [reflexivity|discriminate].
Qed.

Lemma put_changes_no_undocumented_column_witness :
  ~ In "is_admin" documented_fields
  /\ exists r,
       fst (put_api_items_id_details sample_host sample_clock
              (wired_request "1" (VObj [("is_admin", VNum 1)])) sample_db) = Ok r
       /\ status r <> 200.
Proof.
  split.
  - unfold documented_fields. simpl. intuition discriminate.
  - apply (proj1 (put_changes_no_undocumented_column sample_host sample_clock "1"
                    (VObj [("is_admin", VNum 1)]) sample_db) "is_admin").
    + simpl. now left.
    + unfold documented_fields. simpl. intuition discriminate.
Defined.

(** ** ItemDetail create *)

Lemma itemData_scalars (h : host) (clk : clock) (options : value) :
  forallb (fun k => scalar (destructure create_defaults options k))
          raw_option_names = true ->
  forallb scalar (map snd (itemData h clk options)) = true.
Proof.
  intros Hraw. cbn [forallb raw_option_names] in Hraw.
  repeat (apply andb_true_iff in Hraw; destruct Hraw as [? Hraw]).
  unfold itemData. cbn [map snd forallb].
  rewrite !scalar_JSON_stringify.
  repeat (apply andb_true_iff; split); try assumption; reflexivity.
Qed.

Lemma coerce_text_not_null (h : host) (v : sqlval) :
  v <> SNull -> coerce h AffText v <> SNull.
Proof. destruct v; simpl; congruence. Qed.

(** A create whose permissions hold read and write, whose plain options are
    scalars and whose name is not NULL is stored and answered 201 with the
    stored row. *)
Lemma createDetailedItem_accepts (h : host) (clk : clock)
  (props : list (string * value)) (d : db) :
  let options := VObj props in
  validatePermissions (destructure create_defaults options "permissions")
                      (destructure create_defaults options "createdBy") = true ->
  forallb (fun k => scalar (destructure create_defaults options k))
          raw_option_names = true ->
  sql_of (destructure create_defaults options "name") <> SNull ->
  createDetailedItem h clk options d
  = (Ok (mkResponse 201 (js_of_detail (created_detail h clk options d))),
     with_detail (created_detail h clk options d) d).
Proof.
  intros options Hperm Hraw Hname. subst options.
  set (row := created_detail h clk (VObj props) d).
  unfold createDetailedItem, try_catch, bind. cbn [or_default].
  change (destructurable (VObj props) d) with (Ok tt, d).
  rewrite Hperm. cbn [negb].
  unfold insert_detail.
  rewrite (bind_parameters_scalars 24 _ (itemData_scalars h clk _ Hraw) eq_refl).
  change (column "name"
            (store_columns h insert_columns
               (map sql_of (map snd (itemData h clk (VObj props))))))
    with (coerce h AffText (sql_of (destructure create_defaults (VObj props) "name"))).
  pose proof (coerce_text_not_null h _ Hname) as Hnn.
  destruct (coerce h AffText (sql_of (destructure create_defaults (VObj props) "name")));
    [congruence| |];
    cbn [lastInsertRowid];
    rewrite select_detail_num;
    change (next_rowid (item_details_seq d) (map detail_id (item_details d)))
      with (detail_id row);
    change (mkDetail (detail_id row)
              (store_columns h insert_columns
                 (map sql_of (map snd (itemData h clk (VObj props))))
               ++ [("updated_at", SText (current_timestamp clk))])%list)
      with row;
    rewrite (find_detail_fresh d row _ eq_refl);
    reflexivity.
Qed.

Lemma post_details_accepts (h : host) (clk : clock) (req : request) (d : db) :
  let options := post_options (req_body req) in
  validatePermissions (destructure create_defaults options "permissions")
                      (destructure create_defaults options "createdBy") = true ->
  forallb (fun k => scalar (destructure create_defaults options k))
          raw_option_names = true ->
  sql_of (destructure create_defaults options "name") <> SNull ->
  post_api_items_details h clk req d
  = (Ok (mkResponse 201 (js_of_detail (created_detail h clk options d))),
     with_detail (created_detail h clk options d) d).
Proof.
  intros options Hperm Hraw Hname.
  assert (Hbody : destructurable (req_body req) d = (Ok tt, d)).
  { destruct (req_body req) as [| | | | | |props] eqn:Hb; try reflexivity;
      exfalso; apply Hname; reflexivity. }
  unfold post_api_items_details, try_catch, bind. rewrite Hbody.
  fold options. unfold options, post_options in *.
  now rewrite (createDetailedItem_accepts h clk _ d Hperm Hraw Hname).
Qed.

Lemma post_details_denied (h : host) (clk : clock) (req : request) (d : db) :
  let options := post_options (req_body req) in
  get (req_body req) "name" <> Throw TypeError ->
  validatePermissions (destructure create_defaults options "permissions")
                      (destructure create_defaults options "createdBy") = false ->
  post_api_items_details h clk req d
  = (Ok (error_response 403 "Insufficient permissions"), d).
Proof.
  intros options Hbody Hperm.
  assert (Hd : destructurable (req_body req) d = (Ok tt, d)).
  { destruct (req_body req); try reflexivity; exfalso; now apply Hbody. }
  unfold post_api_items_details, try_catch, bind. rewrite Hd.
  unfold createDetailedItem, try_catch, bind. cbn [or_default post_options].
  change (destructurable (VObj _) d) with (Ok tt, d).
  fold (post_options (req_body req)). fold options. now rewrite Hperm.
Qed.

Lemma get_details_present (h : host) (id : string) (payload : value) (n : Z)
  (r : detail) (d : db) :
  text_as_num h id = Some n -> find_detail n d = Some r ->
  get_api_items_id_details h (wired_request id payload) d
  = (Ok (mkResponse 200
           (with_related_data (js_of_detail r) (VArr []) (VArr []) (VArr [])
              (VArr []) (VArr []))), d).
Proof.
  intros Hid Hr.
  unfold get_api_items_id_details, getItemWithRelatedData, try_catch, bind.
  cbn [params_id wired_request]. rewrite select_detail_text, Hid, Hr. reflexivity.
Qed.

Lemma lookup_set_prop_other (k k' : string) (v : value)
  (props : list (string * value)) :
  k <> k' -> lookup k (set_prop k' v props) = lookup k props.
Proof.
  intros Hne. induction props as [|[k0 v0] rest IH]; simpl.
  - now apply String.eqb_neq in Hne as ->.
  - destruct (k' =? k0)%string eqn:Hk; simpl.
    + apply String.eqb_eq in Hk. subst k0.
      now apply String.eqb_neq in Hne as ->.
    + now rewrite IH.
Qed.

(** Outside the related-data properties the GET response shows the row. *)
Lemma with_related_data_other (item a b c e f : value) (k : string) :
  ~ In k related_data_names ->
  field (with_related_data item a b c e f) k = field (VObj (spread item)) k.
Proof.
  intros Hk. unfold with_related_data, field.
  rewrite !lookup_set_prop_other; [reflexivity| | | | |];
    intros ->; apply Hk; simpl; tauto.
Qed.

(** ** Text and structure *)

Lemma length_append (s t : string) :
  String.length (s ++ t) = (String.length s + String.length t)%nat.
Proof. induction s as [|c s IH]; simpl; [reflexivity|]. now rewrite IH. Qed.

Lemma escape_char_nonempty (c : ascii) :
  (1 <= String.length (escape_char c))%nat.
Proof.
  unfold escape_char.
  repeat match goal with
         | |- context [if ?b then _ else _] => destruct b
         end; rewrite ?length_append; simpl; lia.
Qed.

Lemma escape_length (s : string) :
  (String.length s <= String.length (escape s))%nat.
Proof.
  induction s as [|c s IH]; simpl; [lia|].
  rewrite length_append. pose proof (escape_char_nonempty c). lia.
Qed.

Lemma quote_differs (s : string) : quote s <> s.
Proof.
  intros H. apply (f_equal String.length) in H. unfold quote in H.
  rewrite !length_append in H. pose proof (escape_length s).
  simpl in H. lia.
Qed.

(** The text a value is stored under is never the value itself. *)
Lemma stored_text_differs (v : value) : stored_text v <> v.
Proof.
  unfold stored_text.
  destruct v as [| |[|]|n|s|xs|props]; simpl; try discriminate.
  intros H. injection H as H. now apply quote_differs in H.
Qed.

(** ** Enumerated fields on create and update *)

(** C1, as stated, fails: a create whose category is outside the enum is
    stored and answered 201. *)
Lemma create_persists_out_of_enum_category :
  in_enum categories (field out_of_enum_body "category") = false
  /\ exists r d',
       post_api_items_details sample_host sample_clock
         (wired_request "" out_of_enum_body) sample_db = (Ok r, d')
       /\ status r = 201
       /\ field (body r) "category" = VStr "not-a-real-category"
       /\ stored d' 3 "category" = Some (SText "not-a-real-category").
Proof.
  split; [reflexivity|]. do 2 eexists. split; [reflexivity|]. repeat split.
Qed.

(** C1, amended.  The handlers compare category, priority and status with no
    enum.  A create is stored and answered 201 when its permissions hold read
    and write, its name is neither [null] nor [undefined], and each plain
    option is, after the defaults, [undefined], [null], a number or a string.
    Of category, priority and status, one given as a string is then stored
    and returned as given, whatever the string; one that is absent or [null]
    is stored as NULL; a number is stored as its text, by the TEXT affinity
    of the column.  A create with a body and without those permissions is
    answered 403 and stores nothing; an update through the PUT route is
    answered 500 and stores nothing, whatever it carries. *)
Theorem create_stores_enum_fields_unchecked (h : host) (clk : clock) (d : db) :
  (forall req,
     let options := post_options (req_body req) in
     validatePermissions (destructure create_defaults options "permissions")
                         (destructure create_defaults options "createdBy") = true ->
     forallb (fun k => scalar (destructure create_defaults options k))
             raw_option_names = true ->
     sql_of (destructure create_defaults options "name") <> SNull ->
     exists r d' row,
       post_api_items_details h clk req d = (Ok r, d')
       /\ status r = 201
       /\ body r = js_of_detail row
       /\ find_detail (detail_id row) d' = Some row
       /\ forall k, In k ["category"; "priority"; "status"] ->
            column k (detail_cols row)
            = match field (req_body req) k with
              | VStr s => SText s
              | VNum n => SText (num_as_text h n)
              | _ => SNull
              end
            /\ field (body r) k = js_of_sql (column k (detail_cols row)))
  /\
  (forall req,
     let options := post_options (req_body req) in
     get (req_body req) "name" <> Throw TypeError ->
     validatePermissions (destructure create_defaults options "permissions")
                         (destructure create_defaults options "createdBy") = false ->
     post_api_items_details h clk req d
     = (Ok (error_response 403 "Insufficient permissions"), d))
  /\
  (forall id payload,
     put_api_items_id_details h clk (wired_request id payload) d
     = (Ok (error_response 500 "Failed to update detailed item"), d)).
Proof.
  split; [|split].
  - intros req options Hperm Hraw Hname.
    exists (mkResponse 201 (js_of_detail (created_detail h clk options d))),
           (with_detail (created_detail h clk options d) d),
           (created_detail h clk options d).
    split; [now apply post_details_accepts|].
    split; [reflexivity|]. split; [reflexivity|].
    split; [now apply find_detail_fresh|].
    assert (Hcol : forall v,
               coerce h AffText (sql_of (or_default v VUndefined))
               = match v with
                 | VStr s => SText s
                 | VNum n => SText (num_as_text h n)
                 | _ => SNull
                 end)
      by (intros v; destruct v; reflexivity).
    intros k [<-|[<-|[<-|[]]]]; (split; [|reflexivity]).
    + change (column "category" (detail_cols (created_detail h clk options d)))
        with (coerce h AffText
                (sql_of (or_default (field (req_body req) "category") VUndefined))).
      apply Hcol.
    + change (column "priority" (detail_cols (created_detail h clk options d)))
        with (coerce h AffText
                (sql_of (or_default (field (req_body req) "priority") VUndefined))).
      apply Hcol.
    + change (column "status" (detail_cols (created_detail h clk options d)))
        with (coerce h AffText
                (sql_of (or_default (field (req_body req) "status") VUndefined))).
      apply Hcol.
  - intros req options. apply post_details_denied.
  - intros id payload. apply put_wired_rejected.
Qed.

Lemma create_stores_enum_fields_unchecked_witness :
  exists r d' row,
    post_api_items_details sample_host sample_clock
      (wired_request "" mixed_enum_body) sample_db = (Ok r, d')
    /\ status r = 201
    /\ body r = js_of_detail row
    /\ find_detail (detail_id row) d' = Some row
    /\ column "category" (detail_cols row) = SText "not-a-real-category"
    /\ field (body r) "category" = VStr "not-a-real-category"
    /\ column "priority" (detail_cols row) = SText "5.0"
    /\ column "status" (detail_cols row) = SNull.
Proof.
  assert (Hname : sql_of (destructure create_defaults
                            (post_options (req_body (wired_request "" mixed_enum_body)))
                            "name") <> SNull) by discriminate.
  destruct (proj1 (create_stores_enum_fields_unchecked sample_host sample_clock
                     sample_db)
              (wired_request "" mixed_enum_body) eq_refl eq_refl Hname)
    as [r [d' [row [Hpost [Hstatus [Hbody [Hfind Hcols]]]]]]].
  exists r, d', row.
  split; [exact Hpost|]. split; [exact Hstatus|]. split; [exact Hbody|].
  split; [exact Hfind|].
  destruct (Hcols "category" (or_introl eq_refl)) as [Hc Hrc].
  split; [exact Hc|]. split; [rewrite Hrc, Hc; reflexivity|].
  split.
  - exact (proj1 (Hcols "priority" (or_intror (or_introl eq_refl)))).
  - exact (proj1 (Hcols "status" (or_intror (or_intror (or_introl eq_refl))))).
Defined.

(** ** Structured fields *)

(** C3, as stated, fails: tags written as a list of two strings are read back
    as one string, the JSON text of the list. *)
Lemma tags_read_back_as_text :
  exists r1 d1 r2,
    post_api_items_details sample_host sample_clock (wired_request "" tagged_body)
      sample_db = (Ok r1, d1)
    /\ status r1 = 201
    /\ field (body r1) "id" = VNum 3
    /\ get_api_items_id_details sample_host (wired_request "3" VUndefined) d1
       = (Ok r2, d1)
    /\ status r2 = 200
    /\ field (body r2) "tags" = VStr ("[" ++ quote "a" ++ "," ++ quote "b" ++ "]")
    /\ field tagged_body "tags" = VArr [VStr "a"; VStr "b"]
    /\ field (body r2) "tags" <> field tagged_body "tags".
Proof.
  do 3 eexists. split; [reflexivity|]. repeat split. discriminate.
Qed.

(** C3, amended.  After an accepted create, a read of the new record answers
    200 and shows each structured field as text: [tags], [metadata],
    [external_refs], [linked_items] and [reminder_settings] hold the
    [JSON.stringify] text of the value the controller was given (null when
    there is none), [custom_fields] the text of the processed custom fields;
    [dependencies] is replaced by the empty list of resolved dependencies.
    The text is never the structured value that was written. *)
Theorem structured_fields_read_back_as_text (h : host) (clk : clock)
  (req : request) (d : db) (id_text : string) :
  let options := post_options (req_body req) in
  let given := destructure create_defaults options in
  validatePermissions (given "permissions") (given "createdBy") = true ->
  forallb (fun k => scalar (given k)) raw_option_names = true ->
  sql_of (given "name") <> SNull ->
  text_as_num h id_text = Some (detail_id (created_detail h clk options d)) ->
  exists r1 d1 r2,
    post_api_items_details h clk req d = (Ok r1, d1)
    /\ status r1 = 201
    /\ get_api_items_id_details h (wired_request id_text VUndefined) d1 = (Ok r2, d1)
    /\ status r2 = 200
    /\ field (body r2) "tags" = stored_text (given "tags")
    /\ field (body r2) "metadata" = stored_text (given "metadata")
    /\ field (body r2) "external_refs" = stored_text (given "externalRefs")
    /\ field (body r2) "linked_items" = stored_text (given "linkedItems")
    /\ field (body r2) "reminder_settings" = stored_text (given "reminderSettings")
    /\ field (body r2) "custom_fields"
       = stored_text (processCustomFields h (iso_processedAt clk)
                        (given "customFields") (given "templateId"))
    /\ field (body r2) "dependencies" = VArr []
    /\ field (body r1) "dependencies" = stored_text (given "dependencies")
    /\ field (body r2) "tags" <> given "tags"
    /\ field (body r2) "metadata" <> given "metadata"
    /\ field (body r2) "external_refs" <> given "externalRefs"
    /\ field (body r2) "linked_items" <> given "linkedItems"
    /\ field (body r2) "reminder_settings" <> given "reminderSettings".
Proof.
  intros options given Hperm Hraw Hname Hid.
  set (row := created_detail h clk options d) in *.
  assert (Htags : field (with_related_data (js_of_detail row) (VArr []) (VArr [])
                           (VArr []) (VArr []) (VArr [])) "tags"
                  = stored_text (given "tags"))
    by exact (js_of_sql_JSON_stringify h (given "tags")).
  assert (Hmeta : field (with_related_data (js_of_detail row) (VArr []) (VArr [])
                           (VArr []) (VArr []) (VArr [])) "metadata"
                  = stored_text (given "metadata"))
    by exact (js_of_sql_JSON_stringify h (given "metadata")).
  assert (Hext : field (with_related_data (js_of_detail row) (VArr []) (VArr [])
                          (VArr []) (VArr []) (VArr [])) "external_refs"
                 = stored_text (given "externalRefs"))
    by exact (js_of_sql_JSON_stringify h (given "externalRefs")).
  assert (Hlinked : field (with_related_data (js_of_detail row) (VArr []) (VArr [])
                             (VArr []) (VArr []) (VArr [])) "linked_items"
                    = stored_text (given "linkedItems"))
    by exact (js_of_sql_JSON_stringify h (given "linkedItems")).
  assert (Hrem : field (with_related_data (js_of_detail row) (VArr []) (VArr [])
                          (VArr []) (VArr []) (VArr [])) "reminder_settings"
                 = stored_text (given "reminderSettings"))
    by exact (js_of_sql_JSON_stringify h (given "reminderSettings")).
  exists (mkResponse 201 (js_of_detail row)), (with_detail row d),
         (mkResponse 200 (with_related_data (js_of_detail row) (VArr []) (VArr [])
                            (VArr []) (VArr []) (VArr []))).
  split; [now apply post_details_accepts|].
  split; [reflexivity|].
  split.
  { apply (get_details_present h id_text VUndefined (detail_id row) row);
      [exact Hid | now apply find_detail_fresh]. }
  split; [reflexivity|]. cbn [body].
  rewrite Htags, Hmeta, Hext, Hlinked, Hrem.
  split; [reflexivity|]. split; [reflexivity|]. split; [reflexivity|].
  split; [reflexivity|]. split; [reflexivity|].
  split; [exact (js_of_sql_JSON_stringify h _)|].
  split; [reflexivity|].
  split; [exact (js_of_sql_JSON_stringify h (given "dependencies"))|].
  repeat split; apply stored_text_differs.
Qed.

Lemma structured_fields_read_back_as_text_witness :
  exists r1 d1 r2,
    post_api_items_details sample_host sample_clock (wired_request "" tagged_body)
      sample_db = (Ok r1, d1)
    /\ status r1 = 201
    /\ get_api_items_id_details sample_host (wired_request "3" VUndefined) d1
       = (Ok r2, d1)
    /\ status r2 = 200
    /\ field (body r2) "tags" = stored_text (VArr [VStr "a"; VStr "b"]).
Proof.
  destruct (structured_fields_read_back_as_text sample_host sample_clock
              (wired_request "" tagged_body) sample_db "3"
              eq_refl eq_refl ltac:(discriminate) eq_refl)
    as [r1 [d1 [r2 [H1 [H2 [H3 [H4 [H5 _]]]]]]]].
  exists r1, d1, r2. repeat split; assumption.
Defined.

(** ** The create scenario of the specification *)

(** C5, as stated, fails: the body of the scenario carries no permissions, and
    the create is answered 403 with nothing stored. *)
Lemma launch_scenario_is_403 :
  exists r,
    post_api_items_details sample_host sample_clock (wired_request "" launch_body)
      sample_db = (Ok r, sample_db)
    /\ status r = 403
    /\ status r <> 201.
Proof. eexists. split; [reflexivity|]. split; [reflexivity|discriminate]. Qed.

(** C5, amended.  POST /api/items/details with the body of the scenario is
    answered 403 "Insufficient permissions" and stores nothing.  With the
    permissions read and write and a numeric approval flag added to the body,
    it is answered 201 with a record that carries the name, category and
    priority, a null status and null tags; a GET of the assigned id is
    answered 200 with the same record outside the related-data properties. *)
Theorem launch_scenario (h : host) (clk : clock) (d : db) (id_text : string) :
  (forall id,
     post_api_items_details h clk (wired_request id launch_body) d
     = (Ok (error_response 403 "Insufficient permissions"), d))
  /\
  (text_as_num h id_text
   = Some (next_rowid (item_details_seq d) (map detail_id (item_details d))) ->
   exists r1 d1 r2,
     post_api_items_details h clk (wired_request "" launch_body_permitted) d
     = (Ok r1, d1)
     /\ status r1 = 201
     /\ field (body r1) "id"
        = VNum (next_rowid (item_details_seq d) (map detail_id (item_details d)))
     /\ field (body r1) "name" = VStr "Launch"
     /\ field (body r1) "category" = VStr "work"
     /\ field (body r1) "priority" = VStr "high"
     /\ field (body r1) "status" = VNull
     /\ field (body r1) "tags" = VNull
     /\ get_api_items_id_details h (wired_request id_text VUndefined) d1
        = (Ok r2, d1)
     /\ status r2 = 200
     /\ forall k, ~ In k related_data_names ->
                  field (body r2) k = field (body r1) k).
Proof.
  split.
  - intros id. apply post_details_denied; [discriminate | reflexivity].
  - intros Hid.
    set (options := post_options launch_body_permitted).
    set (row := created_detail h clk options d).
    exists (mkResponse 201 (js_of_detail row)), (with_detail row d),
           (mkResponse 200 (with_related_data (js_of_detail row) (VArr []) (VArr [])
                              (VArr []) (VArr []) (VArr []))).
    split.
    { apply (post_details_accepts h clk (wired_request "" launch_body_permitted) d);
        [reflexivity | reflexivity | discriminate]. }
    repeat (split; [reflexivity|]).
    split.
    { apply (get_details_present h id_text VUndefined (detail_id row) row);
        [exact Hid | now apply find_detail_fresh]. }
    split; [reflexivity|].
    intros k Hk. cbn [body]. now rewrite with_related_data_other.
Qed.

Lemma launch_scenario_witness :
  exists r1 d1 r2,
    post_api_items_details sample_host sample_clock
      (wired_request "" launch_body_permitted) sample_db = (Ok r1, d1)
    /\ status r1 = 201
    /\ field (body r1) "id" = VNum 3
    /\ get_api_items_id_details sample_host (wired_request "3" VUndefined) d1
       = (Ok r2, d1)
    /\ status r2 = 200.
Proof.
  destruct (proj2 (launch_scenario sample_host sample_clock sample_db "3") eq_refl)
    as [r1 [d1 [r2 [H1 [H2 [H3 [_ [_ [_ [_ [_ [H4 [H5 _]]]]]]]]]]]]].
  exists r1, d1, r2. repeat split; assumption.
Defined.

(** ** The update beyond the permission check *)

(** The statement text carries the keys of the updates as they are. *)
Example update_sql_of_two_keys :
  update_sql ["name"; "is_admin"]
  = LF ++ "        UPDATE item_details SET name = ?, is_admin = ?, updated_at = ? WHERE id = ?"
       ++ LF ++ "      ".
Proof. reflexivity. Qed.

Lemma select_detail_reads (h : host) (args : list value) (d : db) :
  snd (select_detail h args d) = d.
Proof.
  unfold select_detail. destruct (bind_parameters 1 args) as [[|p [|q ss]]|e];
    try reflexivity.
  destruct (rowid_of h p) as [n|]; [|reflexivity].
  now destruct (find_detail n d).
Qed.

(** Whatever its options, the update writes the store through the dynamic
    statement only: it leaves the store as it was, or as that statement
    leaves it, built from the keys of the processed updates and run on their
    values followed by the id, the timestamp and the id again. *)
Lemma update_writes_through_dynamic_statement (h : host) (clk : clock)
  (options : value) (d : db) :
  let given := destructure update_defaults (or_default options (VObj [])) in
  let processedUpdates := applyPreProcessors (given "updates") (given "preProcessors") in
  snd (updateItemWithAdvancedOptions h clk options d) = d
  \/ exists updateFields updateValues,
       Object_keys processedUpdates = Ok updateFields
       /\ Object_values processedUpdates = Ok updateValues
       /\ snd (updateItemWithAdvancedOptions h clk options d)
          = snd (run_dynamic h (update_sql updateFields)
                   ((updateValues ++ [given "itemId"])
                    ++ [VStr (iso_updated_at clk); given "itemId"]) d).
Proof.
  intros given processedUpdates. subst given processedUpdates.
  unfold updateItemWithAdvancedOptions, try_catch, bind, throw, lift, ret.
  destruct (destructurable (or_default options (VObj [])) d) as [[[]|e] d0] eqn:Hd.
  2:{ left. unfold destructurable, bind, lift, ret in Hd.
      destruct (get (or_default options (VObj [])) "name"); now inversion Hd. }
  assert (d0 = d) as ->.
  { unfold destructurable, bind, lift, ret in Hd.
    destruct (get (or_default options (VObj [])) "name"); now inversion Hd. }
  destruct (validateUpdatePermissions _ _ _); cbn [negb]; [|now left].
  destruct (isValid _); cbn [negb]; [|now left].
  match goal with
  | |- context [select_detail h ?a d] =>
      pose proof (select_detail_reads h a d) as Hsel;
      destruct (select_detail h a d) as [[currentItem|e] d1]
  end; simpl in Hsel; subst d1; [|now left].
  destruct (truthy currentItem); cbn [negb]; [|now left].
  destruct (get _ "enabled") as [enabled|e]; [|now left].
  destruct (truthy enabled);
    [unfold createVersionSnapshot, bind, lift, ret;
     destruct (get currentItem "id"); [|now left]|];
    (match goal with
     | |- context [Object_keys ?p] =>
         destruct (Object_keys p) as [updateFields|e] eqn:Hkeys; [|now left];
         destruct (Object_values p) as [updateValues|e] eqn:Hvalues; [|now left];
         right; exists updateFields, updateValues
     end);
    (split; [reflexivity|]; split; [reflexivity|]);
    (match goal with
     | |- context [run_dynamic h ?q ?a d] =>
         destruct (run_dynamic h q a d) as [[changed|e] d2]
     end; [|reflexivity]);
    (match goal with
     | |- context [if ?c =? 0 then _ else _] => destruct (c =? 0)
     end; [reflexivity|]);
    (match goal with
     | |- context [select_detail h ?a ?d2] =>
         let Hsel' := fresh "Hsel" in
         pose proof (select_detail_reads h a d2) as Hsel';
         destruct (select_detail h a d2) as [[updatedItem|e] d3];
         simpl in Hsel'; subst d3
     end; [|reflexivity]);
    unfold handlePostProcessing, triggerNotifications, logAuditTrail, bind, lift, ret;
    match goal with
    | |- context [get ?u "id"] => now destruct (get u "id")
    end.
Qed.

Lemma keys_values_length (v : value) (ks : list string) (vs : list value) :
  Object_keys v = Ok ks -> Object_values v = Ok vs ->
  List.length vs = List.length ks.
Proof.
  unfold Object_keys, Object_values.
  destruct v; intros Hk Hv; inversion Hk; inversion Hv; subst;
    rewrite ?length_map; reflexivity.
Qed.

(** X19.  The update hands the statement one value more than it has
    placeholders. With a driver that checks the arity, an update of plain
    columns with scalar values therefore leaves the store as it was,
    whatever the permissions and the other options are. *)
Lemma update_of_plain_fields_writes_nothing (h : host) (clk : clock)
  (options : value) (d : db) :
  checks_arity h ->
  let given := destructure update_defaults (or_default options (VObj [])) in
  let processedUpdates := applyPreProcessors (given "updates") (given "preProcessors") in
  forallb identifier (map fst (spread processedUpdates)) = true ->
  forallb scalar (map snd (spread processedUpdates)) = true ->
  scalar (given "itemId") = true ->
  snd (updateItemWithAdvancedOptions h clk options d) = d.
Proof.
  intros Harity given processedUpdates Hkeys Hvalues Hid.
  destruct (update_writes_through_dynamic_statement h clk options d)
    as [Hsame | [fields [values [Hk [Hv Hrun]]]]]; [exact Hsame|].
  fold given in Hk, Hv, Hrun. fold processedUpdates in Hk, Hv.
  rewrite Hrun. apply Harity.
  - unfold Object_keys in Hk.
    destruct processedUpdates; inversion Hk; subst; exact Hkeys.
  - assert (Hvs : forallb scalar values = true).
    { unfold Object_values in Hv.
      destruct processedUpdates; inversion Hv; subst; exact Hvalues. }
    rewrite !forallb_app, Hvs. simpl. now rewrite Hid.
  - rewrite !length_app, (keys_values_length _ _ _ Hk Hv). simpl. lia.
Qed.

Lemma sample_host_checks_arity : checks_arity sample_host.
Proof. intros fields args d _ _ _. reflexivity. Qed.

Lemma update_of_plain_fields_writes_nothing_witness :
  snd (updateItemWithAdvancedOptions sample_host sample_clock permitted_update
         sample_db) = sample_db.
Proof.
  exact (update_of_plain_fields_writes_nothing sample_host sample_clock
           permitted_update sample_db sample_host_checks_arity
           eq_refl eq_refl eq_refl).
Defined.

(** ** Decimal text and [parseInt] *)

Ltac eval_digit :=
  match goal with
  | |- context [digit_value 10 ?c] =>
      let v := eval vm_compute in (digit_value 10 c) in
      change (digit_value 10 c) with v; cbv beta iota
  end.

Lemma read_digits_uint_acc (u : Decimal.uint) (p : positive) :
  read_digits 10 (NilEmpty.string_of_uint u) true (Z.pos p)
  = Some (Z.pos (Pos.of_uint_acc u p)).
Proof.
  revert p. induction u; intros p;
    cbn [NilEmpty.string_of_uint read_digits Pos.of_uint_acc];
    try reflexivity; eval_digit; rewrite <- IHu; f_equal; lia.
Qed.

Lemma read_digits_uint (u : Decimal.uint) :
  read_digits 10 (NilEmpty.string_of_uint u) true 0
  = Some (Z.of_N (Pos.of_uint u)).
Proof.
  induction u; cbn [NilEmpty.string_of_uint read_digits Pos.of_uint];
    try reflexivity; eval_digit; try exact IHu; apply read_digits_uint_acc.
Qed.

Lemma read_digits_uint_start (u : Decimal.uint) :
  u <> Decimal.Nil ->
  read_digits 10 (NilEmpty.string_of_uint u) false 0
  = Some (Z.of_N (Pos.of_uint u)).
Proof.
  intros Hu. destruct u; try congruence;
    cbn [NilEmpty.string_of_uint read_digits Pos.of_uint]; eval_digit;
    try apply read_digits_uint; apply read_digits_uint_acc.
Qed.

Lemma parseInt_uint (u : Decimal.uint) :
  u <> Decimal.Nil ->
  parseInt (NilEmpty.string_of_uint u) = Some (Z.of_N (Pos.of_uint u))
  /\ parseInt (String "-" (NilEmpty.string_of_uint u))
     = Some (- Z.of_N (Pos.of_uint u)).
Proof.
  intros Hu.
  assert (H : parseInt (NilEmpty.string_of_uint u)
              = read_digits 10 (NilEmpty.string_of_uint u) false 0
              /\ parseInt (String "-" (NilEmpty.string_of_uint u))
                 = match read_digits 10 (NilEmpty.string_of_uint u) false 0 with
                   | Some n => Some (- n)
                   | None => None
                   end).
  { destruct u as [|u|u|u|u|u|u|u|u|u|u]; try congruence;
      try (split; unfold parseInt; cbn -[read_digits];
           now destruct (read_digits _ _ _ _)).
    destruct u; split; unfold parseInt; cbn -[read_digits];
      now destruct (read_digits _ _ _ _). }
  destruct H as [H1 H2]. rewrite H1, H2, (read_digits_uint_start u Hu).
  split; reflexivity.
Qed.

(** A number written in decimal is read back by [parseInt]. *)
Lemma parseInt_decimal (n : Z) : parseInt (decimal n) = Some n.
Proof.
  unfold decimal. destruct n as [|p|p]; [reflexivity| |]; simpl.
  - pose proof (Unsigned.to_uint_nonnil p) as Hnil.
    destruct (parseInt_uint (Pos.to_uint p) Hnil) as [H _].
    unfold NilZero.string_of_uint.
    destruct (Pos.to_uint p) eqn:Hp; try congruence;
      rewrite H, <- Hp, DecimalPos.Unsigned.of_to; reflexivity.
  - pose proof (Unsigned.to_uint_nonnil p) as Hnil.
    destruct (parseInt_uint (Pos.to_uint p) Hnil) as [_ H].
    unfold NilZero.string_of_uint.
    destruct (Pos.to_uint p) eqn:Hp; try congruence;
      rewrite H, <- Hp, DecimalPos.Unsigned.of_to; reflexivity.
Qed.

Lemma decimal_inj (a b : Z) : decimal a = decimal b -> a = b.
Proof.
  intros H. apply (f_equal parseInt) in H. rewrite !parseInt_decimal in H.
  congruence.
Qed.

Lemma decimal_nonempty (n : Z) : truthy (VStr (decimal n)) = true.
Proof. apply (parseInt_nonempty _ n), parseInt_decimal. Qed.

(** ** What each route can answer and do to the store *)

Lemma post_items_outcome (h : host) (ts : string) (payload : value) (d : db) :
  post_api_items h ts payload d
  = (Ok (error_response 500 "Failed to create item"), d)
  \/ post_api_items h ts payload d
     = (Ok (error_response 400 "Item name is required"), d)
  \/ exists s,
       get payload "name" = Ok (VStr s)
       /\ post_api_items h ts payload d
          = (Ok (mkResponse 201
                   (js_of_item
                      (mkItem (next_rowid (items_seq d) (map item_id (items d))) s ts))),
             with_item
               (mkItem (next_rowid (items_seq d) (map item_id (items d))) s ts) d).
Proof.
  unfold post_api_items, try_catch, bind, lift.
  destruct (get payload "name") as [name|e]; [|now left].
  destruct name as [| |b|n|s|xs|props]; try (right; left; reflexivity).
  - right; left. now destruct b.
  - right; left. simpl. now destruct (n =? 0).
  - cbn [truthy typeof]. rewrite trim_eqb_blank.
    destruct (s =? "")%string eqn:Hs.
    { right; left. reflexivity. }
    destruct (whitespace_only s) eqn:Hw.
    { right; left. reflexivity. }
    right; right. exists s. split; [reflexivity|].
    set (row := mkItem (next_rowid (items_seq d) (map item_id (items d))) s ts).
    simpl. unfold insertStmt_run, select_item, ret. simpl.
    fold row. change (next_rowid (items_seq d) (map item_id (items d)))
      with (item_id row).
    rewrite (find_item_fresh d row eq_refl). reflexivity.
Qed.

Lemma delete_items_outcome (h : host) (id : string) (d : db) :
  delete_api_items_id h id d
  = (Ok (error_response 400 "Valid item ID is required"), d)
  \/ delete_api_items_id h id d = (Ok (error_response 404 "Item not found"), d)
  \/ exists n,
       parseInt id = Some n
       /\ In n (map item_id (items d))
       /\ delete_api_items_id h id d
          = (Ok (mkResponse 200 (VObj [("message", VStr "Item deleted successfully")])),
             without_item n d).
Proof.
  unfold delete_api_items_id, try_catch, bind.
  destruct (parseInt id) as [n|] eqn:Hp.
  2:{ left. now rewrite orb_true_r. }
  rewrite (parseInt_nonempty id n Hp). cbn [negb orb].
  destruct (existsb (fun it => item_id it =? n) (items d)) eqn:Hex.
  - right; right. exists n. split; [reflexivity|].
    apply existsb_exists in Hex. destruct Hex as [it [Hit Heq]].
    apply Z.eqb_eq in Heq. split.
    { rewrite <- Heq. now apply in_map. }
    unfold delete_item. simpl.
    assert (Hfind : exists x, find (fun it => item_id it =? n) (items d) = Some x).
    { destruct (find (fun it => item_id it =? n) (items d)) eqn:Hf; [eauto|].
      exfalso. apply (find_none _ _ Hf) in Hit. rewrite Heq, Z.eqb_refl in Hit.
      discriminate. }
    destruct Hfind as [x Hx].
    pose proof (filter_negb_shorter (fun it => item_id it =? n) (items d) x Hx) as Hlt.
    destruct (Z.of_nat _ =? 0) eqn:Hz; [apply Z.eqb_eq in Hz; lia|].
    reflexivity.
  - right; left. rewrite delete_item_absent; [reflexivity|].
    intros it Hit Heq.
    assert (existsb (fun it => item_id it =? n) (items d) = true).
    { apply existsb_exists. exists it. split; [exact Hit|now apply Z.eqb_eq]. }
    congruence.
Qed.

Lemma delete_of_missing_detail (h : host) (req : request) (d : db) :
  (forall n, text_as_num h (params_id req) = Some n -> find_detail n d = None) ->
  delete_api_items_id_details h req d
  = (Ok (error_response 500 "Deletion failed"), d).
Proof.
  intros Hmiss.
  unfold delete_api_items_id_details, deleteItemWithCleanup, try_catch, bind.
  rewrite select_detail_text.
  destruct (text_as_num h (params_id req)) as [n|] eqn:Hid; [|reflexivity].
  now rewrite (Hmiss n eq_refl).
Qed.

Lemma find_detail_with_detail (d : db) (row : detail) :
  detail_id row = next_rowid (item_details_seq d) (map detail_id (item_details d)) ->
  find_detail (detail_id row) (with_detail row d) = Some row.
Proof. intros Hid. unfold with_detail. now apply find_detail_fresh. Qed.

Lemma insert_detail_outcome (h : host) (ts : string) (args : list value) (d : db) :
  (exists e, insert_detail h ts args d = (Throw e, d))
  \/ exists row,
       detail_id row
       = next_rowid (item_details_seq d) (map detail_id (item_details d))
       /\ insert_detail h ts args d
          = (Ok (mkRunInfo 1 (detail_id row)), with_detail row d).
Proof.
  unfold insert_detail.
  destruct (bind_parameters 24 args) as [ss|e]; [|left; eauto].
  destruct (column "name" (store_columns h insert_columns ss)) eqn:Hc;
    [left; eauto| |];
    right; eexists (mkDetail _ _); split; reflexivity.
Qed.

Lemma createDetailedItem_outcome (h : host) (clk : clock) (options : value) (d : db) :
  createDetailedItem h clk options d = (Throw TypeError, d)
  \/ createDetailedItem h clk options d
     = (Ok (error_response 403 "Insufficient permissions"), d)
  \/ createDetailedItem h clk options d
     = (Ok (error_response 500 "Failed to create detailed item"), d)
  \/ exists row,
       detail_id row
       = next_rowid (item_details_seq d) (map detail_id (item_details d))
       /\ createDetailedItem h clk options d
          = (Ok (mkResponse 201 (js_of_detail row)), with_detail row d).
Proof.
  unfold createDetailedItem, try_catch, bind.
  destruct (destructurable (or_default options (VObj [])) d) as [[[]|e] d0] eqn:Hd.
  2:{ left. unfold destructurable, bind, lift, ret in Hd.
      destruct (or_default options (VObj [])); simpl in Hd; inversion Hd;
        reflexivity. }
  assert (d0 = d) as ->.
  { unfold destructurable, bind, lift, ret in Hd.
    destruct (get (or_default options (VObj [])) "name"); now inversion Hd. }
  destruct (validatePermissions _ _); cbn [negb]; [|right; left; reflexivity].
  match goal with
  | |- context [insert_detail h ?ts ?args d] =>
      destruct (insert_detail_outcome h ts args d) as [[e He]|[row [Hid Hins]]];
      [rewrite He | rewrite Hins]
  end.
  - right; right; left. reflexivity.
  - right; right; right. exists row. split; [exact Hid|].
    cbn [lastInsertRowid]. rewrite select_detail_num.
    rewrite !(find_detail_with_detail d row Hid). reflexivity.
Qed.

Lemma post_details_outcome (h : host) (clk : clock) (req : request) (d : db) :
  post_api_items_details h clk req d
  = (Ok (error_response 403 "Insufficient permissions"), d)
  \/ post_api_items_details h clk req d
     = (Ok (error_response 500 "Failed to create detailed item"), d)
  \/ exists row,
       detail_id row
       = next_rowid (item_details_seq d) (map detail_id (item_details d))
       /\ post_api_items_details h clk req d
          = (Ok (mkResponse 201 (js_of_detail row)), with_detail row d).
Proof.
  unfold post_api_items_details, try_catch, bind.
  destruct (destructurable (req_body req) d) as [[[]|e] d0] eqn:Hd.
  2:{ right; left. unfold destructurable, bind, lift, ret in Hd.
      destruct (get (req_body req) "name"); now inversion Hd. }
  assert (d0 = d) as ->.
  { unfold destructurable, bind, lift, ret in Hd.
    destruct (get (req_body req) "name"); now inversion Hd. }
  destruct (createDetailedItem_outcome h clk (post_options (req_body req)) d)
    as [H|[H|[H|[row [Hid H]]]]]; rewrite H.
  - right; left. reflexivity.
  - left. reflexivity.
  - right; left. reflexivity.
  - right; right. exists row. split; [exact Hid|reflexivity].
Qed.

Lemma get_details_outcome (h : host) (req : request) (d : db) :
  ((forall n, text_as_num h (params_id req) = Some n -> find_detail n d = None)
   /\ get_api_items_id_details h req d
      = (Ok (error_response 404 "Item not found"), d))
  \/ exists n row,
       text_as_num h (params_id req) = Some n
       /\ find_detail n d = Some row
       /\ get_api_items_id_details h req d
          = (Ok (mkResponse 200
                   (with_related_data (js_of_detail row) (VArr []) (VArr [])
                      (VArr []) (VArr []) (VArr []))), d).
Proof.
  unfold get_api_items_id_details, getItemWithRelatedData, try_catch, bind.
  rewrite select_detail_text.
  destruct (text_as_num h (params_id req)) as [n|] eqn:Hid.
  - destruct (find_detail n d) as [row|] eqn:Hrow.
    + right. exists n, row. split; [reflexivity|]. split; [exact Hrow|reflexivity].
    + left. split; [|reflexivity]. intros m Hm. inversion Hm; subst; assumption.
  - left. split; [|reflexivity]. intros m Hm. discriminate.
Qed.

Lemma delete_details_outcome (h : host) (req : request) (d : db) :
  ((forall n, text_as_num h (params_id req) = Some n -> find_detail n d = None)
   /\ delete_api_items_id_details h req d
      = (Ok (error_response 500 "Deletion failed"), d))
  \/ exists n row,
       text_as_num h (params_id req) = Some n
       /\ find_detail n d = Some row
       /\ delete_api_items_id_details h req d
          = (Ok (match get (req_prop req "user") "id" with
                 | Ok _ =>
                     mkResponse 200
                       (VObj [("message", VStr "Item deleted successfully")])
                 | Throw _ => error_response 500 "Deletion failed"
                 end), without_detail n d).
Proof.
  destruct (text_as_num h (params_id req)) as [n|] eqn:Hid.
  - destruct (find_detail n d) as [row|] eqn:Hrow.
    + right. exists n, row. split; [reflexivity|]. split; [exact Hrow|].
      unfold delete_api_items_id_details, deleteItemWithCleanup, try_catch, bind.
      rewrite select_detail_text, Hid, Hrow.
      destruct (delete_detail_present h (params_id req) n row d Hid Hrow)
        as [info [Hdel Hch]].
      cbn -[delete_detail]. rewrite Hdel, Hch.
      unfold lift. destruct (get (req_prop req "user") "id"); reflexivity.
    + left. split; [intros m Hm; inversion Hm; subst; assumption|].
      apply delete_of_missing_detail; intros m Hm.
      rewrite Hid in Hm. inversion Hm; subst; assumption.
  - left. split; [intros m Hm; discriminate|].
    apply delete_of_missing_detail; intros m Hm.
    rewrite Hid in Hm. discriminate.
Qed.

(** ** Row ids over the life of the store *)

Lemma NoDup_map_filter {A} (f : A -> Z) (p : A -> bool) (l : list A) :
  NoDup (map f l) -> NoDup (map f (filter p l)).
Proof.
  induction l as [|x xs IH]; simpl; intros H; [constructor|].
  inversion H as [|y ys Hnot Hrest]; subst.
  destruct (p x); simpl; [|now apply IH].
  constructor; [|now apply IH].
  intros Hin. apply Hnot. apply in_map_iff in Hin. destruct Hin as [z [Hz Hin]].
  apply filter_In in Hin. rewrite <- Hz. apply in_map. tauto.
Qed.

Lemma Forall_map_filter {A} (f : A -> Z) (p : A -> bool) (P : Z -> Prop)
  (l : list A) :
  Forall P (map f l) -> Forall P (map f (filter p l)).
Proof.
  induction l as [|x xs IH]; simpl; intros H; [constructor|].
  inversion H; subst. destruct (p x); simpl; [constructor|]; auto.
Qed.

Lemma ids_wf_filter {A} (f : A -> Z) (p : A -> bool) (l : list A) (seq : Z) :
  ids_wf (map f l) seq -> ids_wf (map f (filter p l)) seq.
Proof.
  intros [Hnd Hle]. split; [now apply NoDup_map_filter|now apply Forall_map_filter].
Qed.

Lemma next_rowid_above_seq (seq : Z) (ids : list Z) : seq < next_rowid seq ids.
Proof. unfold next_rowid. pose proof (fold_max_ge_seq seq ids). lia. Qed.

Lemma ids_wf_append (ids : list Z) (seq : Z) :
  ids_wf ids seq -> ids_wf (ids ++ [next_rowid seq ids]) (next_rowid seq ids).
Proof.
  intros [Hnd Hle]. split.
  - apply NoDup_app; [exact Hnd | repeat constructor; simpl; tauto |].
    intros x Hx [<-|[]]. pose proof (next_rowid_fresh seq ids _ Hx). lia.
  - apply Forall_app. split.
    + apply Forall_forall. intros x Hx.
      pose proof (next_rowid_fresh seq ids x Hx). lia.
    + repeat constructor. lia.
Qed.

Lemma initial_db_wf (ts : nat -> string) (iso1 iso2 : string) :
  store_wf (initial_db ts iso1 iso2).
Proof.
  unfold store_wf, ids_wf. simpl.
  repeat split; repeat constructor; simpl; try lia; intuition discriminate.
Qed.

Lemma serve_keeps_wf (h : host) (call : api_call) (d : db) :
  store_wf d -> store_wf (snd (serve h call d)).
Proof.
  intros [Hi Hd]. destruct call as [ts b|id|id|clk b|clk id b|id]; cbn [serve].
  - destruct (post_items_outcome h ts b d) as [H|[H|[s [_ H]]]]; rewrite H;
      try (split; assumption).
    split; [|exact Hd]. simpl. rewrite map_app. simpl. now apply ids_wf_append.
  - destruct (delete_items_outcome h id d) as [H|[H|[n [_ [_ H]]]]]; rewrite H;
      try (split; assumption).
    split; [|exact Hd]. simpl. now apply ids_wf_filter.
  - destruct (get_details_outcome h (wired_request id (VObj [])) d)
      as [[_ H]|[n [row [_ [_ H]]]]]; rewrite H; split; assumption.
  - destruct (post_details_outcome h clk (wired_request "" b) d)
      as [H|[H|[row [Hid H]]]]; rewrite H; try (split; assumption).
    split; [exact Hi|]. simpl. rewrite map_app. simpl. rewrite Hid.
    now apply ids_wf_append.
  - rewrite put_wired_rejected. split; assumption.
  - destruct (delete_details_outcome h (wired_request id (VObj [])) d)
      as [[_ H]|[n [row [_ [_ H]]]]]; rewrite H; try (split; assumption).
    split; [exact Hi|]. simpl. now apply ids_wf_filter.
Qed.

(** X1.  Every store the running application reaches, from the store it
    starts with and through any sequence of requests, has pairwise distinct
    row ids in each table, none above the table's AUTOINCREMENT mark. *)
Theorem reachable_stores_are_well_formed (h : host) (ts : nat -> string)
  (iso1 iso2 : string) (calls : list api_call) :
  store_wf (serve_all h calls (initial_db ts iso1 iso2)).
Proof.
  generalize (initial_db_wf ts iso1 iso2).
  generalize (initial_db ts iso1 iso2) as d.
  induction calls as [|call rest IH]; intros d Hwf; simpl; [exact Hwf|].
  apply IH. now apply serve_keeps_wf.
Qed.

Lemma serve_seq_monotone (h : host) (call : api_call) (d : db) :
  items_seq d <= items_seq (snd (serve h call d))
  /\ item_details_seq d <= item_details_seq (snd (serve h call d)).
Proof.
  destruct call as [ts b|id|id|clk b|clk id b|id]; cbn [serve].
  - destruct (post_items_outcome h ts b d) as [H|[H|[s [_ H]]]]; rewrite H;
      simpl; try lia.
    pose proof (next_rowid_above_seq (items_seq d) (map item_id (items d))). lia.
  - destruct (delete_items_outcome h id d) as [H|[H|[n [_ [_ H]]]]]; rewrite H;
      simpl; lia.
  - destruct (get_details_outcome h (wired_request id (VObj [])) d)
      as [[_ H]|[n [row [_ [_ H]]]]]; rewrite H; simpl; lia.
  - destruct (post_details_outcome h clk (wired_request "" b) d)
      as [H|[H|[row [Hid H]]]]; rewrite H; simpl; try lia.
    rewrite Hid.
    pose proof (next_rowid_above_seq (item_details_seq d)
                  (map detail_id (item_details d))). lia.
  - rewrite put_wired_rejected. simpl. lia.
  - destruct (delete_details_outcome h (wired_request id (VObj [])) d)
      as [[_ H]|[n [row [_ [_ H]]]]]; rewrite H; simpl; lia.
Qed.

Lemma serve_all_seq_monotone (h : host) (calls : list api_call) (d : db) :
  items_seq d <= items_seq (serve_all h calls d)
  /\ item_details_seq d <= item_details_seq (serve_all h calls d).
Proof.
  revert d. induction calls as [|call rest IH]; intros d; simpl; [lia|].
  pose proof (serve_seq_monotone h call d).
  pose proof (IH (snd (serve h call d))). lia.
Qed.

(** X2.  Item ids are never reused: of two creates answered 201, the later
    one is given the larger id, whatever requests (deletes included) are
    served in between. *)
Theorem item_ids_increase (h : host) (d : db) (ts1 ts2 : string)
  (payload1 payload2 : value) (between : list api_call)
  (r1 r2 : response) (d1 d2 : db) :
  post_api_items h ts1 payload1 d = (Ok r1, d1) -> status r1 = 201 ->
  post_api_items h ts2 payload2 (serve_all h between d1) = (Ok r2, d2) ->
  status r2 = 201 ->
  exists n1 n2,
    field (body r1) "id" = VNum n1 /\ field (body r2) "id" = VNum n2 /\ n1 < n2.
Proof.
  intros H1 S1 H2 S2.
  destruct (post_items_outcome h ts1 payload1 d) as [H|[H|[s1 [_ H]]]];
    rewrite H in H1; inversion H1; subst r1 d1; try discriminate.
  set (n1 := next_rowid (items_seq d) (map item_id (items d))) in *.
  set (d1 := with_item (mkItem n1 s1 ts1) d) in *.
  set (d' := serve_all h between d1) in *.
  destruct (post_items_outcome h ts2 payload2 d') as [H'|[H'|[s2 [_ H']]]];
    rewrite H' in H2; inversion H2; subst r2 d2; try discriminate.
  exists n1, (next_rowid (items_seq d') (map item_id (items d'))).
  split; [reflexivity|]. split; [reflexivity|].
  pose proof (next_rowid_above_seq (items_seq d') (map item_id (items d'))).
  pose proof (proj1 (serve_all_seq_monotone h between d1)) as Hmono.
  fold d' in Hmono. change (items_seq d1) with n1 in Hmono. lia.
Qed.

Lemma item_ids_increase_witness :
  exists n1 n2,
    field (body (mkResponse 201
                   (js_of_item (mkItem 4 "Buy milk" "2024-05-01 10:00:00")))) "id"
    = VNum n1
    /\ field (body (mkResponse 201
                      (js_of_item (mkItem 5 "Buy bread" "2024-05-01 10:00:02")))) "id"
       = VNum n2
    /\ n1 < n2.
Proof.
  apply (item_ids_increase sample_host sample_db
           "2024-05-01 10:00:00" "2024-05-01 10:00:02"
           (VObj [("name", VStr "Buy milk")]) (VObj [("name", VStr "Buy bread")])
           [DeleteItem "4"] _ _
           (with_item (mkItem 4 "Buy milk" "2024-05-01 10:00:00") sample_db)
           (with_item (mkItem 5 "Buy bread" "2024-05-01 10:00:02") sample_db));
    reflexivity.
Defined.

(** X3.  Detail ids are never reused either: of two detailed creates
    answered 201, the later one is given the larger id, whatever requests
    are served in between. *)
Theorem detail_ids_increase (h : host) (d : db) (clk1 clk2 : clock)
  (req1 req2 : request) (between : list api_call)
  (r1 r2 : response) (d1 d2 : db) :
  post_api_items_details h clk1 req1 d = (Ok r1, d1) -> status r1 = 201 ->
  post_api_items_details h clk2 req2 (serve_all h between d1) = (Ok r2, d2) ->
  status r2 = 201 ->
  exists n1 n2,
    field (body r1) "id" = VNum n1 /\ field (body r2) "id" = VNum n2 /\ n1 < n2.
Proof.
  intros H1 S1 H2 S2.
  destruct (post_details_outcome h clk1 req1 d) as [H|[H|[row1 [Hid1 H]]]];
    rewrite H in H1; inversion H1; subst r1 d1; try discriminate.
  set (d' := serve_all h between (with_detail row1 d)) in *.
  destruct (post_details_outcome h clk2 req2 d') as [H'|[H'|[row2 [Hid2 H']]]];
    rewrite H' in H2; inversion H2; subst r2 d2; try discriminate.
  exists (detail_id row1), (detail_id row2).
  split; [reflexivity|]. split; [reflexivity|].
  pose proof (next_rowid_above_seq (item_details_seq d')
                (map detail_id (item_details d'))).
  pose proof (proj2 (serve_all_seq_monotone h between (with_detail row1 d))) as Hmono.
  fold d' in Hmono. simpl in Hmono. lia.
Qed.

Lemma detail_ids_increase_witness :
  exists n1 n2,
    field (body (mkResponse 201
                   (js_of_detail
                      (created_detail sample_host sample_clock
                         (post_options launch_body_permitted) sample_db)))) "id"
    = VNum n1
    /\ field (body (mkResponse 201
                      (js_of_detail
                         (created_detail sample_host sample_clock
                            (post_options launch_body_permitted)
                            (with_detail
                               (created_detail sample_host sample_clock
                                  (post_options launch_body_permitted) sample_db)
                               (without_detail 2 sample_db)))))) "id"
       = VNum n2
    /\ n1 < n2.
Proof.
  apply (detail_ids_increase sample_host sample_db sample_clock sample_clock
           (wired_request "" launch_body_permitted)
           (wired_request "" launch_body_permitted)
           [DeleteDetails "2"] _ _
           (with_detail
              (created_detail sample_host sample_clock
                 (post_options launch_body_permitted) sample_db) sample_db)
           (snd (post_api_items_details sample_host sample_clock
                   (wired_request "" launch_body_permitted)
                   (with_detail
                      (created_detail sample_host sample_clock
                         (post_options launch_body_permitted) sample_db)
                      (without_detail 2 sample_db)))));
    vm_compute; reflexivity.
Defined.

(** ** Create, then delete *)

Lemma filter_fresh_app (d : db) (row : item) :
  item_id row = next_rowid (items_seq d) (map item_id (items d)) ->
  filter (fun it => negb (item_id it =? item_id row)) (items d ++ [row]) = items d.
Proof.
  intros Hid. rewrite filter_app. simpl. rewrite Z.eqb_refl. simpl.
  rewrite app_nil_r. apply filter_none. intros y Hy.
  apply negb_true_iff, Z.eqb_neq.
  pose proof (next_rowid_fresh (items_seq d) (map item_id (items d)) (item_id y)
                (in_map item_id _ _ Hy)). lia.
Qed.

(** X4.  An item that was just created is deleted by a DELETE of its id
    written in decimal: the request is answered 200 and the table holds
    again the rows it held before the create; [item_details] is as it was. *)
Theorem create_then_delete_item (h : host) (ts : string) (payload : value)
  (d d1 : db) (r : response) :
  post_api_items h ts payload d = (Ok r, d1) -> status r = 201 ->
  exists n d2,
    field (body r) "id" = VNum n
    /\ delete_api_items_id h (decimal n) d1
       = (Ok (mkResponse 200 (VObj [("message", VStr "Item deleted successfully")])),
          d2)
    /\ items d2 = items d
    /\ items_seq d2 = n
    /\ item_details d2 = item_details d
    /\ item_details_seq d2 = item_details_seq d.
Proof.
  intros H1 S1.
  destruct (post_items_outcome h ts payload d) as [H|[H|[s [_ H]]]];
    rewrite H in H1; inversion H1; subst r d1; try discriminate.
  set (n := next_rowid (items_seq d) (map item_id (items d))) in *.
  set (row := mkItem n s ts) in *.
  exists n, (without_item n (with_item row d)).
  split; [reflexivity|]. split.
  - destruct (delete_items_outcome h (decimal n) (with_item row d))
      as [Hd|[Hd|[m [Hm [_ Hd]]]]].
    + exfalso. revert Hd. unfold delete_api_items_id, try_catch, bind.
      rewrite parseInt_decimal, decimal_nonempty. cbn [negb orb].
      destruct (delete_item h [VNum n] (with_item row d)) as [[info|e] d'];
        [destruct (changes info =? 0)|]; discriminate.
    + exfalso. revert Hd. unfold delete_api_items_id, try_catch, bind.
      rewrite parseInt_decimal, decimal_nonempty. cbn [negb orb].
      unfold delete_item. simpl.
      change (filter (fun it => negb (item_id it =? n)) (items d ++ [row]))
        with (filter (fun it => negb (item_id it =? item_id row)) (items d ++ [row])).
      rewrite (filter_fresh_app d row eq_refl), length_app. simpl.
      destruct (Z.of_nat _ =? 0) eqn:Hz; [apply Z.eqb_eq in Hz; lia|discriminate].
    + rewrite parseInt_decimal in Hm. inversion Hm; subst m. exact Hd.
  - unfold without_item, with_item. simpl.
    change (filter (fun it => negb (item_id it =? n)) (items d ++ [row]))
      with (filter (fun it => negb (item_id it =? item_id row)) (items d ++ [row])).
    rewrite (filter_fresh_app d row eq_refl). repeat split.
Qed.

Lemma create_then_delete_item_witness :
  exists n d2,
    field (body (mkResponse 201
                   (js_of_item (mkItem 4 "Buy milk" "2024-05-01 10:00:00")))) "id"
    = VNum n
    /\ delete_api_items_id sample_host (decimal n)
         (with_item (mkItem 4 "Buy milk" "2024-05-01 10:00:00") sample_db)
       = (Ok (mkResponse 200 (VObj [("message", VStr "Item deleted successfully")])),
          d2)
    /\ items d2 = items sample_db
    /\ items_seq d2 = n
    /\ item_details d2 = item_details sample_db
    /\ item_details_seq d2 = item_details_seq sample_db.
Proof.
  apply (create_then_delete_item sample_host "2024-05-01 10:00:00"
           (VObj [("name", VStr "Buy milk")]) sample_db); reflexivity.
Defined.

(** ** The two resources are independent *)

(** X5.  The item routes leave [item_details] as it is, and the detail
    routes leave [items] as it is, whatever they answer. *)
Theorem resources_are_independent (h : host) (call : api_call) (d : db) :
  match call with
  | PostItem _ _ | DeleteItem _ =>
      item_details (snd (serve h call d)) = item_details d
      /\ item_details_seq (snd (serve h call d)) = item_details_seq d
  | GetDetails _ | PostDetails _ _ | PutDetails _ _ _ | DeleteDetails _ =>
      items (snd (serve h call d)) = items d
      /\ items_seq (snd (serve h call d)) = items_seq d
  end.
Proof.
  destruct call as [ts b|id|id|clk b|clk id b|id]; cbn [serve].
  - destruct (post_items_outcome h ts b d) as [H|[H|[s [_ H]]]]; rewrite H;
      split; reflexivity.
  - destruct (delete_items_outcome h id d) as [H|[H|[n [_ [_ H]]]]]; rewrite H;
      split; reflexivity.
  - destruct (get_details_outcome h (wired_request id (VObj [])) d)
      as [[_ H]|[n [row [_ [_ H]]]]]; rewrite H; split; reflexivity.
  - destruct (post_details_outcome h clk (wired_request "" b) d)
      as [H|[H|[row [Hid H]]]]; rewrite H; split; reflexivity.
  - rewrite put_wired_rejected. split; reflexivity.
  - destruct (delete_details_outcome h (wired_request id (VObj [])) d)
      as [[_ H]|[n [row [_ [_ H]]]]]; rewrite H; split; reflexivity.
Qed.

(** ** Reading and deleting a detailed item *)

Lemma lookup_set_prop_same (k : string) (v : value)
  (props : list (string * value)) :
  lookup k (set_prop k v props) = Some v.
Proof.
  induction props as [|[k0 v0] rest IH]; simpl.
  - now rewrite String.eqb_refl.
  - destruct (k =? k0)%string eqn:Hk; simpl.
    + now rewrite String.eqb_refl.
    + now rewrite Hk.
Qed.

Lemma with_related_data_related (item : value) (k : string) :
  In k related_data_names ->
  field (with_related_data item (VArr []) (VArr []) (VArr []) (VArr []) (VArr [])) k
  = VArr [].
Proof.
  intros Hk. unfold with_related_data, field. simpl in Hk.
  destruct Hk as [<-|[<-|[<-|[<-|[<-|[]]]]]];
    repeat first [ rewrite lookup_set_prop_same; reflexivity
                 | rewrite lookup_set_prop_other by discriminate ].
Qed.

(** X6.  A GET of a detailed item never writes and never fails: it answers
    404 when no row matches the id, and otherwise 200 with the row, in which
    the five related-data properties are empty lists. *)
Theorem get_details_reads_only (h : host) (req : request) (d : db) :
  exists r,
    get_api_items_id_details h req d = (Ok r, d)
    /\ ((status r = 404
         /\ forall n, text_as_num h (params_id req) = Some n -> find_detail n d = None)
        \/ (status r = 200
            /\ exists n row,
                 text_as_num h (params_id req) = Some n
                 /\ find_detail n d = Some row
                 /\ (forall k, ~ In k related_data_names ->
                               field (body r) k = field (js_of_detail row) k)
                 /\ (forall k, In k related_data_names ->
                               field (body r) k = VArr []))).
Proof.
  destruct (get_details_outcome h req d) as [[Hnone H]|[n [row [Hid [Hrow H]]]]];
    rewrite H; eexists; (split; [reflexivity|]).
  - left. split; [reflexivity|exact Hnone].
  - right. split; [reflexivity|]. exists n, row.
    split; [exact Hid|]. split; [exact Hrow|]. split.
    + intros k Hk. cbn [body]. now rewrite with_related_data_other.
    + intros k Hk. cbn [body]. now apply with_related_data_related.
Qed.

(** X7.  A DELETE of a detailed item never answers 404, although its handler
    has a branch for it: the answer is 200 or 500, and whatever the answer,
    no row with the id is left. *)
Theorem delete_details_never_404 (h : host) (req : request) (d : db) :
  exists r d',
    delete_api_items_id_details h req d = (Ok r, d')
    /\ (status r = 200 \/ status r = 500)
    /\ (forall n, text_as_num h (params_id req) = Some n -> find_detail n d' = None)
    /\ items d' = items d.
Proof.
  destruct (delete_details_outcome h req d)
    as [[Hnone H]|[n [row [Hid [Hrow H]]]]]; rewrite H; do 2 eexists;
    (split; [reflexivity|]).
  - split; [now right|]. split; [exact Hnone|reflexivity].
  - split.
    { destruct (get (req_prop req "user") "id"); [now left|now right]. }
    split; [|reflexivity].
    intros m Hm. rewrite Hid in Hm. inversion Hm; subst m.
    unfold find_detail, without_detail. simpl. apply find_filter_negb.
Qed.

(** X8.  With a user on the request, the delete of an existing row is
    answered 200; the row is gone and the other rows are kept, in their
    order. *)
Theorem delete_details_with_user (h : host) (req : request) (n : Z)
  (row : detail) (d : db) :
  req_prop req "user" <> VUndefined -> req_prop req "user" <> VNull ->
  text_as_num h (params_id req) = Some n -> find_detail n d = Some row ->
  delete_api_items_id_details h req d
  = (Ok (mkResponse 200 (VObj [("message", VStr "Item deleted successfully")])),
     without_detail n d)
  /\ item_details (without_detail n d)
     = filter (fun r => negb (detail_id r =? n)) (item_details d)
  /\ forall m, m <> n -> find_detail m (without_detail n d) = find_detail m d.
Proof.
  intros Hu1 Hu2 Hid Hrow.
  destruct (delete_details_outcome h req d)
    as [[Hnone _]|[n' [row' [Hid' [Hrow' H]]]]].
  { rewrite (Hnone n Hid) in Hrow. discriminate. }
  rewrite Hid in Hid'. inversion Hid'; subst n'.
  split.
  - rewrite H. destruct (req_prop req "user"); try congruence; reflexivity.
  - split; [reflexivity|].
    intros m Hm. unfold find_detail, without_detail. simpl.
    induction (item_details d) as [|x xs IH]; simpl; [reflexivity|].
    destruct (detail_id x =? n) eqn:Hx; simpl.
    + apply Z.eqb_eq in Hx. destruct (detail_id x =? m) eqn:Hxm; [|exact IH].
      apply Z.eqb_eq in Hxm. congruence.
    + destruct (detail_id x =? m); [reflexivity|exact IH].
Qed.

Lemma delete_details_with_user_witness :
  delete_api_items_id_details sample_host (user_request "1") sample_db
  = (Ok (mkResponse 200 (VObj [("message", VStr "Item deleted successfully")])),
     without_detail 1 sample_db)
  /\ item_details (without_detail 1 sample_db)
     = filter (fun r => negb (detail_id r =? 1)) (item_details sample_db)
  /\ forall m, m <> 1 ->
       find_detail m (without_detail 1 sample_db) = find_detail m sample_db.
Proof.
  eapply (delete_details_with_user sample_host (user_request "1") 1 _ sample_db);
    [discriminate | discriminate | reflexivity | reflexivity].
Defined.

(** ** A detailed create is all or nothing *)

(** X9.  POST /api/items/details answers 201, 403 or 500. With 201 exactly
    one row, the one in the response, is added at the end of the table under
    a fresh id; with 403 or 500 the store is as it was. *)
Theorem create_details_is_atomic (h : host) (clk : clock) (req : request) (d : db) :
  exists r d',
    post_api_items_details h clk req d = (Ok r, d')
    /\ ((status r = 201
         /\ exists row,
              body r = js_of_detail row
              /\ item_details d' = (item_details d ++ [row])%list
              /\ (forall old, In old (item_details d) -> detail_id old < detail_id row)
              /\ item_details_seq d < detail_id row
              /\ find_detail (detail_id row) d' = Some row)
        \/ ((status r = 403 \/ status r = 500) /\ d' = d)).
Proof.
  destruct (post_details_outcome h clk req d) as [H|[H|[row [Hid H]]]];
    rewrite H; do 2 eexists; (split; [reflexivity|]).
  - right. split; [now left|reflexivity].
  - right. split; [now right|reflexivity].
  - left. split; [reflexivity|]. exists row. split; [reflexivity|].
    split; [reflexivity|]. split.
    { intros old Hold. rewrite Hid. apply next_rowid_fresh. now apply in_map. }
    split; [rewrite Hid; apply next_rowid_above_seq|].
    now apply find_detail_with_detail.
Qed.

(** ** Creates the driver or the table refuses *)

Lemma bind_args_rejects_boolean (vs : list value) (b : bool) :
  In (VBool b) vs -> forall bound_object, exists e, bind_args vs bound_object = Throw e.
Proof.
  induction vs as [|v rest IH]; intros Hin bo; [contradiction|].
  destruct Hin as [->|Hin]; [simpl; eauto|].
  destruct v as [| |b'|n|s|xs|props]; cbn [bind_args bind_value]; eauto.
  - destruct (IH Hin bo) as [e ->]. eauto.
  - destruct (IH Hin bo) as [e ->]. eauto.
  - destruct (IH Hin bo) as [e ->]. eauto.
  - destruct (IH Hin bo) as [e ->]. eauto.
  - destruct (bind_values xs); eauto. destruct (IH Hin bo) as [e ->]. eauto.
  - destruct bo; eauto.
Qed.

Lemma insert_detail_refused (h : host) (ts : string) (args : list value) :
  (exists b, In (VBool b) args)
  \/ (exists rest, args = VUndefined :: rest \/ args = VNull :: rest) ->
  exists e, forall d, insert_detail h ts args d = (Throw e, d).
Proof.
  intros [[b Hb]|[rest Hrest]]; unfold insert_detail, bind_parameters.
  - destruct (bind_args_rejects_boolean args b Hb false) as [e ->]. eauto.
  - assert (H : bind_args args false
                = match bind_args rest false with
                  | Throw e => Throw e
                  | Ok ss => Ok (SNull :: ss)
                  end)
      by (destruct Hrest as [-> | ->]; reflexivity).
    rewrite H. destruct (bind_args rest false) as [ss|e]; [|eauto].
    destruct (Nat.eqb _ _); [|eauto].
    change (column "name" (store_columns h insert_columns (SNull :: ss)))
      with SNull.
    eauto.
Qed.

Lemma post_details_refused (h : host) (clk : clock) (req : request) (d : db) :
  (exists e, forall d0,
      insert_detail h (current_timestamp clk)
        (map snd (itemData h clk (post_options (req_body req)))) d0
      = (Throw e, d0)) ->
  post_api_items_details h clk req d
  = (Ok (error_response 403 "Insufficient permissions"), d)
  \/ post_api_items_details h clk req d
     = (Ok (error_response 500 "Failed to create detailed item"), d).
Proof.
  intros [e He].
  unfold post_api_items_details, try_catch, bind.
  destruct (destructurable (req_body req) d) as [[[]|e0] d0] eqn:Hd.
  2:{ right. unfold destructurable, bind, lift, ret in Hd.
      destruct (get (req_body req) "name"); now inversion Hd. }
  assert (d0 = d) as ->.
  { unfold destructurable, bind, lift, ret in Hd.
    destruct (get (req_body req) "name"); now inversion Hd. }
  unfold createDetailedItem, try_catch, bind.
  change (or_default (post_options (req_body req)) (VObj []))
    with (post_options (req_body req)).
  change (destructurable (post_options (req_body req)) d) with (Ok tt, d).
  cbv iota beta.
  destruct (validatePermissions _ _); cbn [negb]; [|left; reflexivity].
  rewrite He. right. reflexivity.
Qed.

(** X10.  A create without a name stores no row. [undefined] and [null] are
    bound as NULL, which the NOT NULL column refuses: the request is
    answered 500, or 403 when the permission check has refused it before,
    and the store is left as it was. *)
Theorem create_without_name_stores_nothing (h : host) (clk : clock)
  (req : request) (d : db) :
  field (req_body req) "name" = VUndefined \/ field (req_body req) "name" = VNull ->
  post_api_items_details h clk req d
  = (Ok (error_response 403 "Insufficient permissions"), d)
  \/ post_api_items_details h clk req d
     = (Ok (error_response 500 "Failed to create detailed item"), d).
Proof.
  intros Hname. apply post_details_refused.
  assert (Hrest : exists rest,
             map snd (itemData h clk (post_options (req_body req)))
             = VUndefined :: rest
             \/ map snd (itemData h clk (post_options (req_body req)))
                = VNull :: rest).
  { unfold itemData. cbn [map snd]. eexists.
    change (destructure create_defaults (post_options (req_body req)) "name")
      with (or_default (field (req_body req) "name") VUndefined).
    destruct Hname as [-> | ->]; [left|right]; reflexivity. }
  apply insert_detail_refused. right. exact Hrest.
Qed.

Lemma create_without_name_stores_nothing_witness :
  post_api_items_details sample_host sample_clock (wired_request "" nameless_body)
    sample_db
  = (Ok (error_response 500 "Failed to create detailed item"), sample_db).
Proof.
  destruct (create_without_name_stores_nothing sample_host sample_clock
              (wired_request "" nameless_body) sample_db (or_introl eq_refl))
    as [H|H]; [vm_compute in H; discriminate H | exact H].
Defined.

(** X11.  A create that leaves out [approvalRequired], or passes a boolean
    for it, stores no row: the option defaults to [false], and the driver
    binds no boolean. The request is answered 500, or 403 when the
    permission check has refused it before, and the store is left as it was. *)
Theorem create_with_boolean_flag_stores_nothing (h : host) (clk : clock)
  (req : request) (d : db) :
  (field (req_body req) "approvalRequired" = VUndefined
   \/ exists b, field (req_body req) "approvalRequired" = VBool b) ->
  post_api_items_details h clk req d
  = (Ok (error_response 403 "Insufficient permissions"), d)
  \/ post_api_items_details h clk req d
     = (Ok (error_response 500 "Failed to create detailed item"), d).
Proof.
  intros Hflag. apply post_details_refused.
  assert (Hb : exists b,
             In (VBool b) (map snd (itemData h clk (post_options (req_body req))))).
  { assert (Harg : exists b,
               destructure create_defaults (post_options (req_body req))
                 "approvalRequired" = VBool b).
    { change (destructure create_defaults (post_options (req_body req))
                "approvalRequired")
        with (or_default (field (req_body req) "approvalRequired") (VBool false)).
      destruct Hflag as [-> | [b ->]]; simpl; eauto. }
    destruct Harg as [b Harg]. exists b. rewrite <- Harg.
    unfold itemData. cbn [map snd]. do 18 right. left. reflexivity. }
  apply insert_detail_refused. left. exact Hb.
Qed.

Lemma create_with_boolean_flag_stores_nothing_witness :
  post_api_items_details sample_host sample_clock (wired_request "" flagless_body)
    sample_db
  = (Ok (error_response 500 "Failed to create detailed item"), sample_db).
Proof.
  destruct (create_with_boolean_flag_stores_nothing sample_host sample_clock
              (wired_request "" flagless_body) sample_db (or_introl eq_refl))
    as [H|H]; [vm_compute in H; discriminate H | exact H].
Defined.

(** ** Permission checks *)

Lemma includes_In (xs : list value) (s : string) :
  includes xs s = true <-> In (VStr s) xs.
Proof.
  unfold includes. rewrite existsb_exists. split.
  - intros [x [Hx Heq]]. destruct x; try discriminate.
    apply String.eqb_eq in Heq. now subst.
  - intros H. exists (VStr s). split; [exact H|apply String.eqb_refl].
Qed.

Lemma validatePermissions_iff (permissions who : value) :
  validatePermissions permissions who = true
  <-> exists xs, permissions = VArr xs
                 /\ In (VStr "read") xs /\ In (VStr "write") xs.
Proof.
  unfold validatePermissions.
  destruct permissions as [| |b|n|s|xs|props]; simpl;
    try (split; [discriminate|intros [xs [H _]]; discriminate]).
  - destruct b; split; try discriminate; intros [xs [H _]]; discriminate.
  - destruct (n =? 0); split; try discriminate; intros [xs [H _]]; discriminate.
  - destruct (s =? "")%string; split; try discriminate;
      intros [xs [H _]]; discriminate.
  - rewrite andb_true_r.
    destruct (includes xs "read") eqn:Hr; destruct (includes xs "write") eqn:Hw;
      simpl; split; try discriminate.
    + intros _. exists xs. split; [reflexivity|].
      split; now apply includes_In.
    + intros _. reflexivity.
    + intros [ys [Hy [_ Hin]]]. inversion Hy; subst.
      apply includes_In in Hin. congruence.
    + intros [ys [Hy [Hin _]]]. inversion Hy; subst.
      apply includes_In in Hin. congruence.
    + intros [ys [Hy [Hin _]]]. inversion Hy; subst.
      apply includes_In in Hin. congruence.
Qed.

Lemma validateUpdatePermissions_iff (permissions who item : value) :
  validateUpdatePermissions permissions who item = true
  <-> exists xs, permissions = VArr xs
                 /\ (In (VStr "write") xs \/ In (VStr "admin") xs).
Proof.
  unfold validateUpdatePermissions.
  destruct permissions as [| |b|n|s|xs|props]; simpl;
    try (split; [discriminate|intros [xs [H _]]; discriminate]).
  - destruct b; split; try discriminate; intros [xs [H _]]; discriminate.
  - destruct (n =? 0); split; try discriminate; intros [xs [H _]]; discriminate.
  - destruct (s =? "")%string; split; try discriminate;
      intros [xs [H _]]; discriminate.
  - destruct (includes xs "write") eqn:Hw; destruct (includes xs "admin") eqn:Ha;
      simpl; split; try discriminate; try (intros _; reflexivity).
    + intros _. exists xs. split; [reflexivity|]. left. now apply includes_In.
    + intros _. exists xs. split; [reflexivity|]. left. now apply includes_In.
    + intros _. exists xs. split; [reflexivity|]. right. now apply includes_In.
    + intros [ys [Hy [Hin|Hin]]]; inversion Hy; subst;
        apply includes_In in Hin; congruence.
Qed.

(** X12.  The create check passes exactly for an array holding both read and
    write, the update check exactly for an array holding write or admin;
    neither looks at who asks. Whoever may create may update. *)
Theorem permission_checks (permissions who item : value) :
  (validatePermissions permissions who = true
   <-> exists xs, permissions = VArr xs
                  /\ In (VStr "read") xs /\ In (VStr "write") xs)
  /\ (validateUpdatePermissions permissions who item = true
      <-> exists xs, permissions = VArr xs
                     /\ (In (VStr "write") xs \/ In (VStr "admin") xs))
  /\ (validatePermissions permissions who = true ->
      validateUpdatePermissions permissions who item = true).
Proof.
  split; [apply validatePermissions_iff|].
  split; [apply validateUpdatePermissions_iff|].
  intros Hc. apply validateUpdatePermissions_iff.
  apply validatePermissions_iff in Hc. destruct Hc as [xs [Hp [_ Hw]]].
  exists xs. split; [exact Hp|now left].
Qed.

(** ** Attachment ids *)

Lemma after_underscore_uint (u : Decimal.uint) (s : string) :
  after_underscore (NilEmpty.string_of_uint u ++ s) = after_underscore s.
Proof. induction u; simpl; auto. Qed.

Lemma after_underscore_decimal (n : Z) (s : string) :
  after_underscore (decimal n ++ s) = after_underscore s.
Proof.
  unfold decimal. destruct n as [|p|p]; [reflexivity| |]; simpl;
    unfold NilZero.string_of_uint;
    destruct (Pos.to_uint p) eqn:Hp; try reflexivity;
    rewrite <- Hp; apply after_underscore_uint.
Qed.

Lemma attachment_id_index (ms index : Z) :
  after_underscore
    (after_underscore ("att_" ++ decimal ms ++ "_" ++ decimal index))
  = decimal index.
Proof.
  change (after_underscore ("att_" ++ decimal ms ++ "_" ++ decimal index))
    with (decimal ms ++ "_" ++ decimal index).
  now rewrite after_underscore_decimal.
Qed.

Lemma attachment_ids_from_spec (ms : nat -> Z) (xs : list value) (start : nat) :
  List.length (attachment_ids_from ms start xs) = List.length xs
  /\ (forall k, (k < List.length xs)%nat ->
        nth_error (attachment_ids_from ms start xs) k
        = Some (VStr ("att_" ++ decimal (ms (start + k)%nat) ++ "_"
                        ++ decimal (Z.of_nat (start + k)))))
  /\ (forall id, In id (attachment_ids_from ms start xs) ->
        exists k, (start <= k)%nat
                  /\ id = VStr ("att_" ++ decimal (ms k) ++ "_"
                                  ++ decimal (Z.of_nat k))).
Proof.
  revert start. induction xs as [|x rest IH]; intros start; simpl.
  - repeat split; [intros k Hk; lia | intros id []].
  - destruct (IH (S start)) as [Hlen [Hnth Hin]]. repeat split.
    + now rewrite Hlen.
    + intros [|k] Hk; simpl.
      * now rewrite Nat.add_0_r.
      * rewrite Hnth by lia. now rewrite Nat.add_succ_r.
    + intros id [<-|H].
      * exists start. split; [lia|reflexivity].
      * destruct (Hin id H) as [k [Hk Heq]]. exists k. split; [lia|exact Heq].
Qed.

Lemma attachment_ids_from_NoDup (ms : nat -> Z) (xs : list value) (start : nat) :
  NoDup (attachment_ids_from ms start xs).
Proof.
  revert start. induction xs as [|x rest IH]; intros start; simpl; constructor.
  - intros Hin.
    destruct (proj2 (proj2 (attachment_ids_from_spec ms rest (S start))) _ Hin)
      as [k [Hk Heq]].
    apply (f_equal (fun v => match v with
                             | VStr s => after_underscore (after_underscore s)
                             | _ => EmptyString
                             end)) in Heq.
    cbv beta iota in Heq. rewrite attachment_id_index in Heq.
    pose proof (attachment_id_index (ms start) (Z.of_nat start)) as Hhead.
    assert (Hs : decimal (Z.of_nat start) = decimal (Z.of_nat k))
      by (rewrite <- Hhead; exact Heq).
    apply decimal_inj in Hs. lia.
  - apply IH.
Qed.

(** X13.  [handleAttachments] makes one id per attachment, the k-th from the
    k-th clock reading and k; the ids of one call are pairwise distinct
    whatever the clock reads. Anything but an array gives no id. *)
Theorem handleAttachments_ids (ms : nat -> Z) (attachments who : value) :
  (Array_isArray attachments = false ->
   handleAttachments ms attachments who = VArr [])
  /\ (forall xs, attachments = VArr xs ->
      exists ids,
        handleAttachments ms attachments who = VArr ids
        /\ List.length ids = List.length xs
        /\ NoDup ids
        /\ forall k, (k < List.length xs)%nat ->
             nth_error ids k
             = Some (VStr ("att_" ++ decimal (ms k) ++ "_"
                             ++ decimal (Z.of_nat k)))).
Proof.
  split.
  - destruct attachments; simpl; intros H; try reflexivity; discriminate.
  - intros xs ->. exists (attachment_ids_from ms 0 xs).
    destruct (attachment_ids_from_spec ms xs 0) as [Hlen [Hnth _]].
    split; [reflexivity|]. split; [exact Hlen|].
    split; [apply attachment_ids_from_NoDup|]. intros k Hk. now apply Hnth.
Qed.

(** ** Custom fields *)

Lemma field_set_prop_same (k : string) (v : value) (props : list (string * value)) :
  field (VObj (set_prop k v props)) k = v.
Proof. unfold field. now rewrite lookup_set_prop_same. Qed.

Lemma field_set_prop_other (k k' : string) (v : value)
  (props : list (string * value)) :
  k <> k' -> field (VObj (set_prop k' v props)) k = field (VObj props) k.
Proof. intros H. unfold field. now rewrite lookup_set_prop_other. Qed.

(** X14.  [processCustomFields] gives the empty object for absent or falsy
    custom fields and for a text [JSON.parse] rejects; it gives an object
    back as it is when there is no template, and with a template it adds
    [templateApplied] and [processedAt] and keeps every other property. *)
Theorem processCustomFields_cases (h : host) (iso : string)
  (customFields templateId : value) :
  (truthy customFields = false ->
   processCustomFields h iso customFields templateId = VObj [])
  /\ (forall s e, customFields = VStr s -> JSON_parse h s = Throw e ->
      processCustomFields h iso customFields templateId = VObj [])
  /\ (forall props, customFields = VObj props -> truthy templateId = false ->
      processCustomFields h iso customFields templateId = customFields)
  /\ (forall props, customFields = VObj props -> truthy templateId = true ->
      field (processCustomFields h iso customFields templateId) "templateApplied"
      = templateId
      /\ field (processCustomFields h iso customFields templateId) "processedAt"
         = VStr iso
      /\ forall k, k <> "templateApplied" -> k <> "processedAt" ->
                   field (processCustomFields h iso customFields templateId) k
                   = field customFields k).
Proof.
  unfold processCustomFields. split; [|split; [|split]].
  - intros H. now rewrite H.
  - intros s e -> Hparse. simpl. destruct (s =? "")%string; [reflexivity|].
    simpl. now rewrite Hparse.
  - intros props -> Ht. simpl. now rewrite Ht.
  - intros props -> Ht.
    cbn [truthy negb]. rewrite Ht. cbn [assign].
    split; [|split].
    + rewrite field_set_prop_other by discriminate. apply field_set_prop_same.
    + apply field_set_prop_same.
    + intros k Hk1 Hk2. now rewrite !field_set_prop_other.
Qed.

(** ** Pre-processors *)

Lemma trimEnd_idempotent (s : string) : trimEnd (trimEnd s) = trimEnd s.
Proof.
  induction s as [|c r IH]; [reflexivity|]. simpl.
  destruct (trimEnd r) as [|c' r'] eqn:Hr.
  - destruct (is_space c) eqn:Hc; simpl; [reflexivity|]. now rewrite Hc.
  - change (trimEnd (String c (String c' r')))
      with (match trimEnd (String c' r') with
            | EmptyString => if is_space c then EmptyString else String c EmptyString
            | String a b => String c (String a b)
            end).
    now rewrite IH.
Qed.

Lemma trimStart_trimEnd (s : string) :
  trimStart (trimEnd (trimStart s)) = trimEnd (trimStart s).
Proof.
  induction s as [|c r IH]; [reflexivity|]. simpl.
  destruct (is_space c) eqn:Hc; [exact IH|].
  simpl. destruct (trimEnd r); rewrite ?Hc; simpl; rewrite ?Hc; reflexivity.
Qed.

Lemma trim_idempotent (s : string) : trim (trim s) = trim s.
Proof.
  unfold trim. now rewrite trimStart_trimEnd, trimEnd_idempotent.
Qed.

Lemma sanitized_idempotent (v : value) : sanitized (sanitized v) = sanitized v.
Proof. destruct v; simpl; try reflexivity. now rewrite trim_idempotent. Qed.

(** What the processors seen so far have made of the updates: nothing, or
    the sanitized values. *)
Lemma apply_processors_shape (processors : list value)
  (props : list (string * value)) (done : bool) :
  match apply_processors
          (if done then map (fun kv => (fst kv, sanitized (snd kv))) props else props)
          processors with
  | Throw _ => True
  | Ok out =>
      out = props
      \/ out = map (fun kv => (fst kv, sanitized (snd kv))) props
  end.
Proof.
  revert done. induction processors as [|p rest IH]; intros done; simpl.
  - destruct done; [now right|now left].
  - unfold apply_processor.
    destruct (get p "name") as [name|e]; [|exact I].
    destruct (get p "type") as [type|e]; [|exact I].
    destruct (is_string type "sanitize").
    + replace (map (fun kv => match snd kv with
                              | VStr s => (fst kv, VStr (trim s))
                              | _ => kv
                              end)
                   (if done
                    then map (fun kv => (fst kv, sanitized (snd kv))) props
                    else props))
        with (map (fun kv => (fst kv, sanitized (snd kv))) props).
      * apply (IH true).
      * destruct done.
        -- rewrite map_map. apply map_ext. intros [k v]. simpl.
           destruct v; simpl; try reflexivity. now rewrite trim_idempotent.
        -- apply map_ext. intros [k v]. now destruct v.
    + apply IH.
Qed.

(** X15.  [applyPreProcessors] never adds, drops, renames or reorders a key,
    and each value comes out as it went in or, a string, trimmed. Without an
    array of processors the result is a plain copy. *)
Theorem applyPreProcessors_keeps_keys (updates preProcessors : value) :
  map fst (spread (applyPreProcessors updates preProcessors))
  = map fst (spread updates)
  /\ (map snd (spread (applyPreProcessors updates preProcessors))
      = map snd (spread updates)
      \/ map snd (spread (applyPreProcessors updates preProcessors))
         = map sanitized (map snd (spread updates)))
  /\ (Array_isArray preProcessors = false ->
      applyPreProcessors updates preProcessors = VObj (spread updates)).
Proof.
  unfold applyPreProcessors. split; [|split].
  - destruct preProcessors as [| | | | |ps|]; try reflexivity.
    pose proof (apply_processors_shape ps (spread updates) false) as H.
    cbv beta iota in H.
    destruct (apply_processors (spread updates) ps) as [out|e]; [|reflexivity].
    destruct H as [->| ->]; [reflexivity|].
    simpl. rewrite map_map. reflexivity.
  - destruct preProcessors as [| | | | |ps|]; try (left; reflexivity).
    pose proof (apply_processors_shape ps (spread updates) false) as H.
    cbv beta iota in H.
    destruct (apply_processors (spread updates) ps) as [out|e]; [|now left].
    destruct H as [->| ->]; [now left|].
    right. simpl. now rewrite !map_map.
  - destruct preProcessors; simpl; intros H; try reflexivity; discriminate.
Qed.

Lemma apply_processors_total (processors : list value)
  (props : list (string * value)) (done : bool) :
  Forall (fun p => p <> VUndefined /\ p <> VNull) processors ->
  apply_processors
    (if done then map (fun kv => (fst kv, sanitized (snd kv))) props else props)
    processors
  = Ok (if done || existsb (fun p => is_string (field p "type") "sanitize") processors
        then map (fun kv => (fst kv, sanitized (snd kv))) props
        else props).
Proof.
  revert done. induction processors as [|p rest IH]; intros done Hwf; simpl.
  - now rewrite orb_false_r.
  - inversion Hwf as [|q qs [Hu Hn] Hrest]; subst.
    unfold apply_processor.
    assert (Hname : exists name, get p "name" = Ok name)
      by (destruct p; try congruence; eexists; reflexivity).
    destruct Hname as [name ->].
    assert (Htype : get p "type" = Ok (field p "type"))
      by (destruct p; try congruence; reflexivity).
    rewrite Htype.
    destruct (is_string (field p "type") "sanitize").
    + replace (map (fun kv => match snd kv with
                              | VStr s => (fst kv, VStr (trim s))
                              | _ => kv
                              end)
                   (if done
                    then map (fun kv => (fst kv, sanitized (snd kv))) props
                    else props))
        with (map (fun kv => (fst kv, sanitized (snd kv))) props).
      * rewrite (IH true Hrest). now rewrite orb_true_r.
      * destruct done.
        -- rewrite map_map. apply map_ext. intros [k v]. simpl.
           destruct v; simpl; try reflexivity. now rewrite trim_idempotent.
        -- apply map_ext. intros [k v]. now destruct v.
    + now rewrite (IH done Hrest).
Qed.

(** X16.  With processors none of which is [null] or [undefined], one of
    them of type sanitize, every string value of the updates comes out
    trimmed, once, and nothing else changes. *)
Theorem sanitize_trims_every_string (updates : value) (processors : list value) :
  Forall (fun p => p <> VUndefined /\ p <> VNull) processors ->
  existsb (fun p => is_string (field p "type") "sanitize") processors = true ->
  applyPreProcessors updates (VArr processors)
  = VObj (map (fun kv => (fst kv, sanitized (snd kv))) (spread updates)).
Proof.
  intros Hwf Hex. unfold applyPreProcessors.
  pose proof (apply_processors_total processors (spread updates) false Hwf) as H.
  cbv beta iota in H. rewrite H, Hex. reflexivity.
Qed.

Lemma sanitize_trims_every_string_witness :
  applyPreProcessors padded_updates (VArr sanitize_processors)
  = VObj [("name", VStr "Launch"); ("budget", VNum 5)].
Proof.
  apply (sanitize_trims_every_string padded_updates sanitize_processors).
  - repeat constructor; discriminate.
  - reflexivity.
Defined.

(** ** Custom validators *)

Lemma consistent_error (es : list string) (msg : string) :
  consistent (mkValidation false (es ++ [msg])).
Proof.
  unfold consistent. simpl. split; [discriminate|].
  intros H. now destruct es.
Qed.

Lemma apply_validator_consistent (data : value) (acc : validation) (v : value) :
  consistent acc ->
  match apply_validator data acc v with
  | Ok r => consistent r /\ (isValid acc = false -> isValid r = false)
  | Throw _ => True
  end.
Proof.
  intros Hacc. unfold apply_validator.
  repeat match goal with
         | |- context [match ?X with _ => _ end] =>
             lazymatch X with
             | context [match _ with _ => _ end] => fail
             | _ => destruct X
             end
         end;
    first [ exact I
          | split; [exact Hacc | tauto]
          | split; [apply consistent_error | reflexivity] ].
Qed.

Lemma apply_validators_consistent (data : value) (vs : list value)
  (acc : validation) :
  consistent acc ->
  match apply_validators data acc vs with
  | Ok r => consistent r /\ (isValid acc = false -> isValid r = false)
  | Throw _ => True
  end.
Proof.
  revert acc. induction vs as [|v rest IH]; intros acc Hacc; simpl.
  - now split.
  - pose proof (apply_validator_consistent data acc v Hacc) as Hv.
    destruct (apply_validator data acc v) as [acc1|e]; [|exact I].
    destruct Hv as [Hc Hs]. pose proof (IH acc1 Hc) as Hr.
    destruct (apply_validators data acc1 rest) as [r|e]; [|exact I].
    destruct Hr as [Hc' Hs']. split; [exact Hc'|]. intros H. auto.
Qed.

(** X17.  The result of the custom validation is valid exactly when it lists
    no error. Without an array of validators it is valid; a validator for a
    field the data neither holds nor inherits has no effect, so a required
    rule never reports a missing field. *)
Theorem validateWithCustomRules_result (data customValidators : value) :
  (isValid (validateWithCustomRules data customValidators) = true
   <-> errors (validateWithCustomRules data customValidators) = [])
  /\ (Array_isArray customValidators = false ->
      validateWithCustomRules data customValidators = mkValidation true [])
  /\ (forall props validators,
        data = VObj props -> customValidators = VArr validators ->
        Forall (fun v => exists f, get v "field" = Ok (VStr f)
                                   /\ lookup f props = None
                                   /\ ~ In f Object_prototype_names) validators ->
        validateWithCustomRules data customValidators = mkValidation true []).
Proof.
  split; [|split].
  - unfold validateWithCustomRules.
    destruct customValidators as [| | | | |vs|]; try (split; reflexivity).
    assert (H0 : consistent (mkValidation true [])) by (split; reflexivity).
    pose proof (apply_validators_consistent data vs _ H0) as H.
    destruct (apply_validators data (mkValidation true []) vs) as [r|e].
    + exact (proj1 H).
    + split; discriminate.
  - destruct customValidators; simpl; intros H; try reflexivity; discriminate.
  - intros props validators -> -> Hall. unfold validateWithCustomRules.
    assert (H : forall acc,
              apply_validators (VObj props) acc validators = Ok acc).
    { induction Hall as [|v rest [f [Hget [Hf _]]] _ IH]; intros acc;
        [reflexivity|].
      cbn [apply_validators].
      assert (Hv : apply_validator (VObj props) acc v = Ok acc).
      { unfold apply_validator. rewrite Hget. cbn [truthy].
        destruct (f =? "")%string; [reflexivity|]. cbn [negb].
        unfold get_computed. cbn [ToString spread]. now rewrite Hf. }
      rewrite Hv. apply IH. }
    now rewrite H.
Qed.

(** X18.  A required rule on a field the data holds with a falsy or blank
    value makes the result invalid, wherever the rule stands among the
    validators and whatever the others are. *)
Theorem required_rule_rejects_blank (props : list (string * value))
  (validators : list value) (f : string) (x : value) :
  lookup f props = Some x -> x <> VUndefined ->
  (truthy x = false \/ exists s, x = VStr s /\ whitespace_only s = true) ->
  f <> "" ->
  Exists (fun v => get v "field" = Ok (VStr f)
                   /\ field v "rule" = VStr "required") validators ->
  isValid (validateWithCustomRules (VObj props) (VArr validators)) = false.
Proof.
  intros Hf Hx Hblank Hne Hex. unfold validateWithCustomRules.
  assert (H : forall acc, consistent acc ->
            match apply_validators (VObj props) acc validators with
            | Ok r => isValid r = false
            | Throw _ => True
            end).
  { induction Hex as [v rest [Hget Hrule]|v rest _ IH]; intros acc Hacc;
      cbn [apply_validators].
    - assert (Hv : exists es,
                apply_validator (VObj props) acc v = Ok (mkValidation false es)
                /\ consistent (mkValidation false es)).
      { unfold apply_validator. rewrite Hget. cbn [truthy].
        apply String.eqb_neq in Hne. rewrite Hne. cbn [negb].
        unfold get_computed. cbn [ToString spread]. rewrite Hf.
        assert (Hblank' :
                  (if negb (truthy x) then Ok true
                   else match toString x with
                        | Throw e => Throw e
                        | Ok s => Ok (trim s =? "")%string
                        end) = Ok true).
        { destruct Hblank as [Ht|[s [-> Hs]]].
          - now rewrite Ht.
          - cbn [truthy toString ToString]. destruct (negb _); [reflexivity|].
            now rewrite trim_eqb_blank, Hs. }
        rewrite Hrule. cbn [is_string String.eqb]. simpl is_string.
        destruct x; try congruence; cbv zeta; rewrite Hblank';
          eexists; (split; [reflexivity|apply consistent_error]). }
      destruct Hv as [es [-> Hc]].
      pose proof (apply_validators_consistent (VObj props) rest _ Hc) as Hr.
      destruct (apply_validators (VObj props) (mkValidation false es) rest);
        [|exact I].
      now apply Hr.
    - pose proof (apply_validator_consistent (VObj props) acc v Hacc) as Hv.
      destruct (apply_validator (VObj props) acc v) as [acc1|e]; [|exact I].
      apply IH. exact (proj1 Hv). }
  assert (H0 : consistent (mkValidation true [])) by (split; reflexivity).
  specialize (H _ H0).
  now destruct (apply_validators (VObj props) (mkValidation true []) validators).
Qed.

Lemma required_rule_rejects_blank_witness :
  isValid (validateWithCustomRules (VObj [("name", VStr "   ")])
             (VArr [VObj [("field", VStr "name"); ("rule", VStr "required")]]))
  = false.
Proof.
  apply (required_rule_rejects_blank [("name", VStr "   ")]
           [VObj [("field", VStr "name"); ("rule", VStr "required")]]
           "name" (VStr "   ")).
  - reflexivity.
  - discriminate.
  - right. exists "   ". split; reflexivity.
  - discriminate.
  - left. split; reflexivity.
Defined.

(** ** Client-side checks and the routes they guard *)

Lemma post_items_accepts (h : host) (ts : string) (payload : value) (s : string)
  (d : db) :
  get payload "name" = Ok (VStr s) -> name_missing (VStr s) = false ->
  post_api_items h ts payload d
  = (Ok (mkResponse 201
           (js_of_item
              (mkItem (next_rowid (items_seq d) (map item_id (items d))) s ts))),
     with_item (mkItem (next_rowid (items_seq d) (map item_id (items d))) s ts) d).
Proof.
  intros Hget Hname. unfold post_api_items, try_catch, bind, lift.
  rewrite Hget. unfold name_missing in Hname. rewrite Hname.
  set (row := mkItem (next_rowid (items_seq d) (map item_id (items d))) s ts).
  simpl. unfold insertStmt_run, select_item, ret. simpl.
  fold row. change (next_rowid (items_seq d) (map item_id (items d)))
    with (item_id row).
  rewrite (find_item_fresh d row eq_refl). reflexivity.
Qed.

(** X20.  What the item service has validated, the item route accepts: a
    body with the validated name is answered 201 and stored as a new row
    with that name. *)
Theorem client_validated_item_is_created (h : host) (ts : string)
  (itemData payload : value) (d : db) :
  ItemService.validateItemData itemData = true ->
  get payload "name" = Ok (field itemData "name") ->
  exists s,
    field itemData "name" = VStr s
    /\ post_api_items h ts payload d
       = (Ok (mkResponse 201
                (js_of_item
                   (mkItem (next_rowid (items_seq d) (map item_id (items d))) s ts))),
          with_item
            (mkItem (next_rowid (items_seq d) (map item_id (items d))) s ts) d).
Proof.
  unfold ItemService.validateItemData. intros Hvalid Hget.
  destruct (negb (truthy itemData) || negb (typeof itemData =? "object")%string);
    [discriminate|].
  destruct (name_missing (field itemData "name")) eqn:Hname; [discriminate|].
  destruct (field itemData "name") as [| |b|n|s|xs|props] eqn:Hf;
    try discriminate.
  - unfold name_missing in Hname. simpl in Hname. now rewrite orb_true_r in Hname.
  - unfold name_missing in Hname. simpl in Hname. now rewrite orb_true_r in Hname.
  - exists s. split; [reflexivity|]. now apply post_items_accepts.
Qed.

Lemma client_validated_item_is_created_witness :
  exists s,
    field launch_body "name" = VStr s
    /\ post_api_items sample_host "2024-05-01 10:00:00" launch_body sample_db
       = (Ok (mkResponse 201
                (js_of_item
                   (mkItem (next_rowid (items_seq sample_db)
                              (map item_id (items sample_db)))
                      s "2024-05-01 10:00:00"))),
          with_item
            (mkItem (next_rowid (items_seq sample_db)
                       (map item_id (items sample_db)))
               s "2024-05-01 10:00:00") sample_db).
Proof.
  apply (client_validated_item_is_created sample_host "2024-05-01 10:00:00"
           launch_body launch_body sample_db); reflexivity.
Defined.

(** X21.  The check of the application component is the stricter one: what
    it accepts the item service accepts too, and its priority and status are
    each falsy or one of the listed names. *)
Theorem app_validation_is_stricter (itemData : value) :
  App.validateItemData itemData = true ->
  ItemService.validateItemData itemData = true
  /\ (truthy (field itemData "priority") = true ->
      In (field itemData "priority")
         [VStr "low"; VStr "medium"; VStr "high"; VStr "critical"])
  /\ (truthy (field itemData "status") = true ->
      In (field itemData "status")
         [VStr "active"; VStr "pending"; VStr "completed"; VStr "cancelled"]).
Proof.
  unfold App.validateItemData, ItemService.validateItemData.
  destruct (negb (truthy itemData) || negb (typeof itemData =? "object")%string);
    [discriminate|].
  destruct (name_missing (field itemData "name")); [discriminate|].
  destruct (truthy (field itemData "category")
            && negb (one_of ["work"; "personal"; "urgent"]
                       (field itemData "category"))); [discriminate|].
  intros H. split; [reflexivity|].
  assert (Hone : forall names v,
             one_of names v = true -> In v (map VStr names)).
  { intros names v. unfold one_of. rewrite existsb_exists.
    intros [x [Hx Hv]]. destruct v; try discriminate. simpl in Hv.
    apply String.eqb_eq in Hv. subst. now apply in_map. }
  split; intros Ht; rewrite Ht in H; cbn [andb] in H.
  - destruct (one_of _ (field itemData "priority")) eqn:Ho; [|discriminate].
    exact (Hone _ _ Ho).
  - destruct (truthy (field itemData "priority")
              && negb (one_of ["low"; "medium"; "high"; "critical"]
                         (field itemData "priority"))); [discriminate|].
    destruct (one_of _ (field itemData "status")) eqn:Ho; [|discriminate].
    exact (Hone _ _ Ho).
Qed.

Lemma app_validation_is_stricter_witness :
  ItemService.validateItemData launch_body = true
  /\ (truthy (field launch_body "priority") = true ->
      In (field launch_body "priority")
         [VStr "low"; VStr "medium"; VStr "high"; VStr "critical"])
  /\ (truthy (field launch_body "status") = true ->
      In (field launch_body "status")
         [VStr "active"; VStr "pending"; VStr "completed"; VStr "cancelled"]).
Proof.
  apply (app_validation_is_stricter launch_body). reflexivity.
Defined.

(** X22.  The permission check of the item service and the create check of
    the controller accept the same permissions, those holding read and
    write: what the client lets through is not refused for its permissions
    by the create, nor by the update. *)
Theorem client_and_server_permission_checks_agree
  (permissions itemId createdBy userId : value) :
  ItemService.validateUserPermissions permissions itemId
  = validatePermissions permissions createdBy
  /\ (ItemService.validateUserPermissions permissions itemId = true ->
      exists xs, permissions = VArr xs
                 /\ In (VStr "read") xs /\ In (VStr "write") xs
                 /\ validateUpdatePermissions permissions userId itemId = true).
Proof.
  split; [reflexivity|].
  change (ItemService.validateUserPermissions permissions itemId)
    with (validatePermissions permissions createdBy).
  intros H. apply validatePermissions_iff in H. destruct H as [xs [Hp [Hr Hw]]].
  exists xs. repeat split; try assumption.
  apply validateUpdatePermissions_iff. exists xs. split; [exact Hp|now left].
Qed.
